(** * ray::syncing — the component syncer (src/ray/common/component_syncer.h)

    A shallow embedding of [RaySyncer], of the reactor protocol
    [RaySyncer::Protocol<T>] with its two flavours, and of
    [RaySyncerService::StartSync], together with the properties the
    design document states about them. *)

From stdpp Require Import base option list gmap strings numbers.

Local Open Scope string_scope.
Local Open Scope list_scope.
Local Open Scope nat_scope.

(** ** Messages *)

Abbreviation NodeId := string.

(** [RayComponentId] is a protobuf enum; it is transmitted and used as an
    array index, so it is a natural number here. *)
Abbreviation RayComponentId := nat.

(** Modelled from the spec: the protobuf message [RaySyncMessage] is declared
    in syncer.pb.h, which is not part of the sources; its fields are those of
    the design document's [Message]. *)
Record RaySyncMessage := mkMessage {
  origin_node : NodeId;
  component : RayComponentId;
  version : N;
  payload : string
}.

#[export] Instance RaySyncMessage_eq_dec : EqDecision RaySyncMessage.
Proof. solve_decision. Defined.

(** [RaySyncMessages]: the wire frame, an ordered sequence of messages. *)
Abbreviation RaySyncMessages := (list RaySyncMessage).

(** Keys of a per-node sub-map: [std::pair<std::string, RayComponentId>]. *)
Abbreviation MessageKey := (NodeId * RayComponentId)%type.

Definition key_of (m : RaySyncMessage) : MessageKey :=
  (origin_node m, component m).

(** [NodeIndexedMessages] and the type of [cluster_messages_]. *)
Abbreviation NodeIndexedMessages := (gmap MessageKey RaySyncMessage).
Abbreviation ClusterMessages := (gmap NodeId NodeIndexedMessages).

(** ** Reporters and receivers

    Both are opaque collaborators.  A reporter is what its [Snapshot() const]
    returns; a receiver is known by its identity only, and what is handed to
    it is recorded in a log. *)

Record Reporter := mkReporter { Snapshot : RaySyncMessage }.
Record Receiver := mkReceiver { receiver_id : nat }.

#[export] Instance Reporter_eq_dec : EqDecision Reporter.
Proof. solve_decision. Defined.
#[export] Instance Receiver_eq_dec : EqDecision Receiver.
Proof. solve_decision. Defined.

(** ** The message store of the design document *)

Module Store.

(** Modelled from the spec: part of the integration rule of the missing
    [RaySyncer::Update]: the versions recorded for [key] in any sub-map of
    the store. *)
Definition versions_known (st : ClusterMessages) (key : MessageKey) : list N :=
  omap (λ sub : NodeIndexedMessages, version <$> sub !! key) (map_to_list st).*2.

(** Modelled from the spec: step 2 of the integration rule of the missing
    [RaySyncer::Update]: the latest-known version for [key], looked up across
    the store by scanning it. *)
Definition latest_known (st : ClusterMessages) (key : MessageKey) : option N :=
  match versions_known st key with
  | [] => None
  | v :: vs => Some (foldr N.max v vs)
  end.

(** Modelled from the spec: step 2 of the integration rule of the missing
    [RaySyncer::Update]: is [m] strictly newer than what the store knows for
    its key?  A key the store knows nothing about accepts any version. *)
Definition strictly_newer (st : ClusterMessages) (m : RaySyncMessage) : bool :=
  match latest_known st (key_of m) with
  | None => true
  | Some v => (v <? version m)%N
  end.

(** Modelled from the spec: step 3 of the integration rule of the missing
    [RaySyncer::Update]: the write into every viewer's sub-map but the
    origin's and the sender's. *)
Definition write_for_viewers (from : NodeId) (m : RaySyncMessage)
    (st : ClusterMessages) : ClusterMessages :=
  map_imap (λ (v : NodeId) (sub : NodeIndexedMessages),
              Some (if decide (v = origin_node m ∨ v = from) then sub
                    else <[key_of m := m]> sub)) st.

(** Modelled from the spec: [AddViewer] of the design document; in the
    header it is [RaySyncer::AddNode]. *)
Definition AddViewer (v : NodeId) (st : ClusterMessages) : ClusterMessages :=
  <[v := ∅]> st.

(** Modelled from the spec: [RemoveViewer]; the header declares no
    counterpart. *)
Definition RemoveViewer (v : NodeId) (st : ClusterMessages) : ClusterMessages :=
  delete v st.

(** Modelled from the spec: the body of [RaySyncer::Update] is missing from
    the sources (the header only declares it); this is the integration rule
    [Ingest(from, m)] of the design document.  The second component is
    what step 4 hands to the local registry's [Deliver]. *)
Definition Ingest (self from : NodeId) (m : RaySyncMessage)
    (st : ClusterMessages) : ClusterMessages * list RaySyncMessage :=
  if strictly_newer st m
  then (write_for_viewers from m st,
        if decide (from = self) then [] else [m])
  else (st, []).

(** Modelled from the spec: the body of [RaySyncer::SyncMessages] is missing
    from the sources; this is [DrainFor(v)] of the design document: return
    and remove every message queued for viewer [v]. *)
Definition DrainFor (v : NodeId) (st : ClusterMessages)
    : list RaySyncMessage * ClusterMessages :=
  match st !! v with
  | None => ([], st)
  | Some sub => ((map_to_list sub).*2, <[v := ∅]> st)
  end.

(** A sequence of [Ingest] calls, each with its sender. *)
Definition ingest_all (self : NodeId) (calls : list (NodeId * RaySyncMessage))
    (st : ClusterMessages) : ClusterMessages :=
  foldl (λ s c, (Ingest self c.1 c.2 s).1) st calls.

(** The version stored for [key] at viewer [v]. *)
Definition stored_version (st : ClusterMessages) (v : NodeId)
    (key : MessageKey) : option N :=
  sub ← st !! v; version <$> sub !! key.

(** The maximum version ever ingested for [key] in a sequence of calls. *)
Definition max_ingested (calls : list (NodeId * RaySyncMessage))
    (key : MessageKey) : option N :=
  match version <$> filter (λ m, key_of m = key) calls.*2 with
  | [] => None
  | v :: vs => Some (foldr N.max v vs)
  end.

(** A store with an empty sub-map for each of [viewers]. *)
Definition with_viewers (viewers : list NodeId) : ClusterMessages :=
  foldr AddViewer ∅ viewers.

(** The operations of the store, and sequences of them. *)
Inductive Op :=
| OpAddViewer (v : NodeId)
| OpRemoveViewer (v : NodeId)
| OpIngest (from : NodeId) (m : RaySyncMessage)
| OpDrainFor (v : NodeId).

Definition apply_op (self : NodeId) (op : Op) (st : ClusterMessages)
    : ClusterMessages :=
  match op with
  | OpAddViewer v => AddViewer v st
  | OpRemoveViewer v => RemoveViewer v st
  | OpIngest from m => (Ingest self from m st).1
  | OpDrainFor v => (DrainFor v st).2
  end.

Definition run_ops (self : NodeId) (ops : list Op) (st : ClusterMessages)
    : ClusterMessages :=
  foldl (λ s op, apply_op self op s) st ops.

(** [msg] is queued for viewer [v] under [key]. *)
Definition entry (st : ClusterMessages) (v : NodeId) (key : MessageKey)
    (msg : RaySyncMessage) : Prop :=
  ∃ sub, st !! v = Some sub ∧ sub !! key = Some msg.

End Store.

(** ** The syncer and its reactors, as the header has them *)

(** Reactors live on the heap; a reactor is named by its address. *)
Abbreviation rid := nat.

Inductive ReactorKind := ClientSide | ServerSide.

(** The members of [Protocol<T>].  [timer] is the wait pending on the
    deadline timer, with its delay in milliseconds.  The last two fields are
    the RPC runtime's view of the stream: a write, or the initial metadata,
    whose completion has not been reported yet. *)
Record Reactor := mkReactor {
  kind : ReactorKind;
  node_id : NodeId;
  in_message : RaySyncMessages;
  out_message : RaySyncMessages;
  buffer : RaySyncMessages;
  timer : option N;
  write_in_flight : bool;
  metadata_in_flight : bool
}.

(** The handlers posted to [io_context_], by the name they are posted
    under. *)
Inductive Task :=
| ReadDone (r : rid)       (* "ReadDone": Update, Clear, StartRead *)
| RaySyncWrite (r : rid)   (* "RaySyncWrite": SendMessage *)
| RaySyncDone (r : rid).   (* "RaySyncDone": followers_.erase(node_id) *)

(** [grpc::StatusCode]; the header only ever finishes with [OK]. *)
Inductive StatusCode := OK | INVALID_ARGUMENT.

(** What a run leaves behind: the calls into the RPC runtime and into the
    timer, and the timer expiries that were served. *)
Inductive Action :=
| StartRead (r : rid)
| StartWrite (r : rid) (batch : RaySyncMessages)
| StartSendInitialMetadata (r : rid)
| Finish (r : rid) (status : StatusCode)
| AddInitialMetadata (key value : string)
| TimerArm (r : rid) (ms : N)
| TimerExpired (r : rid).

Inductive TimerError := operation_aborted | other_error.

#[export] Instance Task_eq_dec : EqDecision Task.
Proof. solve_decision. Defined.
#[export] Instance StatusCode_eq_dec : EqDecision StatusCode.
Proof. solve_decision. Defined.
#[export] Instance Action_eq_dec : EqDecision Action.
Proof. solve_decision. Defined.

(** The members of [RaySyncer].  [followers_] and [leader_] own the reactors
    they point to.  [received] logs what was handed to local receivers. *)
Record RaySyncer := mkSyncer {
  node_id_ : NodeId;
  leader_ : option rid;
  cluster_messages_ : ClusterMessages;
  followers_ : gmap NodeId rid;
  reporters_ : list (option Reporter);
  receivers_ : list (option Receiver);
  received : list (Receiver * RaySyncMessage)
}.

Record World := mkWorld {
  syncer : RaySyncer;
  heap : gmap rid Reactor;       (* the live reactors *)
  next_reactor : rid;            (* the next address [make_unique] returns *)
  io_context_ : list Task;       (* posted handlers, oldest first *)
  trace : list Action
}.

(** A call returns, fails a [RAY_CHECK] (the process aborts), or touches a
    reactor that was destroyed. *)
Inductive outcome (A : Type) :=
| Done (a : A)
| Abort
| Undefined.
Arguments Done {A} a.
Arguments Abort {A}.
Arguments Undefined {A}.

Definition set_syncer (s : RaySyncer) (w : World) : World :=
  mkWorld s (heap w) (next_reactor w) (io_context_ w) (trace w).
Definition set_reactor (r : rid) (x : Reactor) (w : World) : World :=
  mkWorld (syncer w) (<[r := x]> (heap w)) (next_reactor w) (io_context_ w) (trace w).
Definition destroy (r : rid) (w : World) : World :=
  mkWorld (syncer w) (delete r (heap w)) (next_reactor w) (io_context_ w) (trace w).
(** [io_context_.dispatch(handler, name)], called from the threads of the
    RPC runtime: the handler is queued behind those already posted. *)
Definition dispatch (t : Task) (w : World) : World :=
  mkWorld (syncer w) (heap w) (next_reactor w) (io_context_ w ++ [t]) (trace w).
(** A call into the RPC runtime or the timer, recorded. *)
Definition emit (a : Action) (w : World) : World :=
  mkWorld (syncer w) (heap w) (next_reactor w) (io_context_ w) (trace w ++ [a]).

Definition set_cluster_messages (c : ClusterMessages) (s : RaySyncer) : RaySyncer :=
  mkSyncer (node_id_ s) (leader_ s) c (followers_ s) (reporters_ s) (receivers_ s)
           (received s).
Definition set_followers (f : gmap NodeId rid) (s : RaySyncer) : RaySyncer :=
  mkSyncer (node_id_ s) (leader_ s) (cluster_messages_ s) f (reporters_ s)
           (receivers_ s) (received s).

Definition set_node_id (n : NodeId) (x : Reactor) : Reactor :=
  mkReactor (kind x) n (in_message x) (out_message x) (buffer x) (timer x)
            (write_in_flight x) (metadata_in_flight x).
Definition set_in_message (b : RaySyncMessages) (x : Reactor) : Reactor :=
  mkReactor (kind x) (node_id x) b (out_message x) (buffer x) (timer x)
            (write_in_flight x) (metadata_in_flight x).
Definition set_out_message (b : RaySyncMessages) (x : Reactor) : Reactor :=
  mkReactor (kind x) (node_id x) (in_message x) b (buffer x) (timer x)
            (write_in_flight x) (metadata_in_flight x).
Definition set_buffer (b : RaySyncMessages) (x : Reactor) : Reactor :=
  mkReactor (kind x) (node_id x) (in_message x) (out_message x) b (timer x)
            (write_in_flight x) (metadata_in_flight x).
Definition set_timer (t : option N) (x : Reactor) : Reactor :=
  mkReactor (kind x) (node_id x) (in_message x) (out_message x) (buffer x) t
            (write_in_flight x) (metadata_in_flight x).
Definition set_write_in_flight (b : bool) (x : Reactor) : Reactor :=
  mkReactor (kind x) (node_id x) (in_message x) (out_message x) (buffer x) (timer x)
            b (metadata_in_flight x).
Definition set_metadata_in_flight (b : bool) (x : Reactor) : Reactor :=
  mkReactor (kind x) (node_id x) (in_message x) (out_message x) (buffer x) (timer x)
            (write_in_flight x) b.

(** A member function of a reactor runs on a live reactor. *)
Definition with_reactor (r : rid) (w : World) (f : Reactor → outcome World)
    : outcome World :=
  match heap w !! r with
  | Some x => f x
  | None => Undefined
  end.

(** [RaySyncer::Register].  The slots are [std::array]s indexed without a
    bounds check; a [RayComponentId] is below [kComponentArraySize], and an
    index past the end (undefined in the source) changes nothing here. *)
Definition Register (component_id : RayComponentId) (reporter : option Reporter)
    (receiver : option Receiver) (s : RaySyncer) : RaySyncer :=
  mkSyncer (node_id_ s) (leader_ s) (cluster_messages_ s) (followers_ s)
           (<[component_id := reporter]> (reporters_ s))
           (<[component_id := receiver]> (receivers_ s))
           (received s).

(** [RaySyncer::GetNodeId]. *)
Definition GetNodeId (s : RaySyncer) : NodeId := node_id_ s.

(** [RaySyncer::AddNode]. *)
Definition AddNode (n : NodeId) (s : RaySyncer) : RaySyncer :=
  set_cluster_messages (<[n := ∅]> (cluster_messages_ s)) s.

(** Request and response metadata: a multimap, searched by key. *)
Abbreviation Metadata := (list (string * string)).

Definition metadata_find (key : string) (md : Metadata) : option string :=
  (λ found, found.2.2) <$> list_find (λ kv, kv.1 = key) md.

Section Syncer.

(** [RayComponentId_ARRAYSIZE] comes with the protobuf schema. *)
Variable kComponentArraySize : nat.

(** [RaySyncer::Update] (both overloads) and [RaySyncer::SyncMessages] are
    declared in the header and defined elsewhere: the reactor code is
    embedded over any implementation of them.  They are member functions of
    the syncer and act on its members.  The header declares [SyncMessages]
    const; the type below also covers the draining implementation the
    design document describes. *)
Variable Update : NodeId → RaySyncMessage → RaySyncer → RaySyncer.
Variable UpdateBatch : NodeId → RaySyncMessages → RaySyncer → RaySyncer.
Variable SyncMessages : NodeId → RaySyncer → RaySyncMessages * RaySyncer.

(** The constructor of [SyncerServerReactor], at address [r]. *)
Definition new_server_reactor (n : NodeId) : Reactor :=
  mkReactor ServerSide n [] [] [] None false true.

Definition construct_server_reactor (r : rid) (n : NodeId) (w : World) : World :=
  emit (StartSendInitialMetadata r)
    (mkWorld (syncer w) (<[r := new_server_reactor n]> (heap w))
             (S (next_reactor w)) (io_context_ w) (trace w)).

(** [RaySyncer::Accept].  [emplace] inserts only under a key that is not in
    the table; otherwise the table is left as it is and the local
    [unique_ptr] still owns the new reactor when the function returns, which
    destroys it.  The result is [followers_[node_id].get()]. *)
Definition Accept (n : NodeId) (w : World) : option rid * World :=
  let r := next_reactor w in
  let w1 := construct_server_reactor r n w in
  let inserted := bool_decide (followers_ (syncer w1) !! n = None) in
  let w2 := if inserted
            then set_syncer (set_followers (<[n := r]> (followers_ (syncer w1)))
                                           (syncer w1)) w1
            else w1 in
  let w3 := set_syncer (AddNode n (syncer w2)) w2 in
  let result := followers_ (syncer w3) !! n in
  (result, if inserted then w3 else destroy r w3).

(** [Protocol::OnReadDone]. *)
Definition OnReadDone (ok : bool) (r : rid) (w : World) : outcome World :=
  with_reactor r w (λ _,
    if ok then Done (dispatch (ReadDone r) w)
    else Done (emit (StartRead r) w)).

(** The handler posted by [OnReadDone(true)]. *)
Definition run_ReadDone (r : rid) (w : World) : outcome World :=
  with_reactor r w (λ x,
    let w1 := set_syncer (UpdateBatch (node_id x) (in_message x) (syncer w)) w in
    let w2 := set_reactor r (set_in_message [] x) w1 in
    Done (emit (StartRead r) w2)).

(** [Protocol::OnWriteDone]. *)
Definition OnWriteDone (ok : bool) (r : rid) (w : World) : outcome World :=
  with_reactor r w (λ x,
    if ok then
      Done (emit (TimerArm r 100) (set_reactor r (set_timer (Some 100%N) x) w))
    else Done (dispatch (RaySyncWrite r) w)).

(** The loop of [SendMessage] over the reporter slots, from slot [i] on,
    [n] slots to go. *)
Fixpoint collect_snapshots (n i : nat) (s : RaySyncer) : RaySyncer :=
  match n with
  | O => s
  | S n' =>
      let s' := match reporters_ s !! i with
                | Some (Some reporter) => Update (GetNodeId s) (Snapshot reporter) s
                | _ => s
                end in
      collect_snapshots n' (S i) s'
  end.

(** [Protocol::ResetOutMessage]. *)
Definition ResetOutMessage (x : Reactor) : Reactor := set_out_message [] x.

(** [Protocol::SendMessage]. *)
Definition SendMessage (r : rid) (w : World) : outcome World :=
  with_reactor r w (λ x,
    let s1 := collect_snapshots kComponentArraySize 0 (syncer w) in
    let '(drained, s2) := SyncMessages (node_id x) s1 in
    let x1 := set_buffer drained x in
    let w1 := set_reactor r x1 (set_syncer s2 w) in
    match drained with
    | [] => OnWriteDone true r w1
    | _ :: _ =>
        let x2 := ResetOutMessage x1 in
        let x3 := set_out_message (out_message x2 ++ drained) x2 in
        Done (emit (StartWrite r (out_message x3))
                (set_reactor r (set_write_in_flight true x3) w1))
    end).

(** The handler waiting on the timer, armed by [OnWriteDone(true)]. *)
Definition timer_callback (error : option TimerError) (r : rid) (w : World)
    : outcome World :=
  match error with
  | Some operation_aborted => Done w
  | Some other_error => Abort
  | None => SendMessage r w
  end.

(** [SyncerServerReactor::OnSendInitialMetadataDone]. *)
Definition OnSendInitialMetadataDone (ok : bool) (r : rid) (w : World)
    : outcome World :=
  with_reactor r w (λ _,
    if ok then Done (dispatch (RaySyncWrite r) (emit (StartRead r) w))
    else Done (emit (Finish r OK) w)).

(** [SyncerClientReactor::OnReadInitialMetadataDone]. *)
Definition OnReadInitialMetadataDone (ok : bool) (metadata : Metadata)
    (r : rid) (w : World) : outcome World :=
  with_reactor r w (λ x,
    if ok then
      match metadata_find "node_id" metadata with
      | None => Abort
      | Some n =>
          let w1 := set_syncer (AddNode n (syncer w)) w in
          let w2 := set_reactor r (set_node_id n x) w1 in
          Done (dispatch (RaySyncWrite r) (emit (StartRead r) w2))
      end
    else Abort).

(** [SyncerClientReactor::OnDone] and [SyncerServerReactor::OnDone]: the
    two bodies are the same. *)
Definition OnDone (r : rid) (w : World) : outcome World :=
  with_reactor r w (λ _, Done (dispatch (RaySyncDone r) w)).

(** The handler posted by [OnDone]: [followers_.erase(node_id)].  Erasing
    an entry destroys the reactor it owns. *)
Definition run_RaySyncDone (r : rid) (w : World) : outcome World :=
  with_reactor r w (λ x,
    let w1 := match followers_ (syncer w) !! node_id x with
              | Some owned => destroy owned w
              | None => w
              end in
    Done (set_syncer (set_followers (delete (node_id x) (followers_ (syncer w1)))
                                    (syncer w1)) w1)).

(** [RaySyncerService::StartSync]. *)
Definition StartSync (client_metadata : Metadata) (w : World)
    : outcome (option rid * World) :=
  match metadata_find "node_id" client_metadata with
  | None => Abort
  | Some n =>
      Done (Accept n (emit (AddInitialMetadata "node_id" (GetNodeId (syncer w))) w))
  end.

(** Running one posted handler. *)
Definition run_task (t : Task) (w : World) : outcome World :=
  match t with
  | ReadDone r => run_ReadDone r w
  | RaySyncWrite r => SendMessage r w
  | RaySyncDone r => run_RaySyncDone r w
  end.

(** *** The syncer in its environment

    What can happen to a syncer: calls of its public member functions,
    callbacks of the RPC runtime, the timer, and the executor running the
    next posted handler. *)
Inductive Event :=
| CallRegister (component_id : RayComponentId) (reporter : option Reporter)
               (receiver : option Receiver)
| CallUpdate (from : NodeId) (m : RaySyncMessage)
| RpcStartSync (client_metadata : Metadata)
| RpcSendInitialMetadataDone (r : rid) (ok : bool)
| RpcReadInitialMetadataDone (r : rid) (ok : bool) (metadata : Metadata)
| RpcReadDone (r : rid) (ok : bool) (batch : RaySyncMessages)
| RpcWriteDone (r : rid) (ok : bool)
| RpcDone (r : rid)
| TimerEvent (r : rid) (error : option TimerError)
| RunNext.

Definition reactor_has (p : Reactor → bool) (r : rid) (w : World) : bool :=
  match heap w !! r with
  | Some x => p x
  | None => false
  end.

Definition is_server (x : Reactor) : bool :=
  match kind x with ServerSide => true | ClientSide => false end.
Definition is_client (x : Reactor) : bool := negb (is_server x).

(** What the environment does: the runtime reports the completion of a
    write, or of the initial metadata, that is in flight, and calls the
    member functions of the reactor's own flavour; the timer serves a wait
    that is pending; the executor runs a handler that was posted. *)
Definition enabled (e : Event) (w : World) : bool :=
  match e with
  | RpcSendInitialMetadataDone r _ =>
      reactor_has (λ x, is_server x && metadata_in_flight x) r w
  | RpcReadInitialMetadataDone r _ _ =>
      reactor_has (λ x, is_client x && metadata_in_flight x) r w
  | RpcWriteDone r _ => reactor_has write_in_flight r w
  | TimerEvent r _ => reactor_has (λ x, bool_decide (is_Some (timer x))) r w
  | RunNext => bool_decide (io_context_ w ≠ [])
  | _ => true
  end.

Definition handle (e : Event) (w : World) : outcome World :=
  match e with
  | CallRegister c reporter receiver =>
      Done (set_syncer (Register c reporter receiver (syncer w)) w)
  | CallUpdate from m => Done (set_syncer (Update from m (syncer w)) w)
  | RpcStartSync client_metadata =>
      match StartSync client_metadata w with
      | Done (_, w') => Done w'
      | Abort => Abort
      | Undefined => Undefined
      end
  | RpcSendInitialMetadataDone r ok =>
      with_reactor r w (λ x,
        OnSendInitialMetadataDone ok r
          (set_reactor r (set_metadata_in_flight false x) w))
  | RpcReadInitialMetadataDone r ok metadata =>
      with_reactor r w (λ x,
        OnReadInitialMetadataDone ok metadata r
          (set_reactor r (set_metadata_in_flight false x) w))
  | RpcReadDone r ok batch =>
      with_reactor r w (λ x,
        OnReadDone ok r
          (if ok then set_reactor r (set_in_message batch x) w else w))
  | RpcWriteDone r ok =>
      with_reactor r w (λ x,
        OnWriteDone ok r (set_reactor r (set_write_in_flight false x) w))
  | RpcDone r => OnDone r w
  | TimerEvent r error =>
      with_reactor r w (λ x,
        let w1 := set_reactor r (set_timer None x) w in
        timer_callback error r
          (match error with None => emit (TimerExpired r) w1 | Some _ => w1 end))
  | RunNext =>
      match io_context_ w with
      | [] => Done w
      | t :: rest =>
          run_task t (mkWorld (syncer w) (heap w) (next_reactor w) rest (trace w))
      end
  end.

(** Runs: every event is one the environment can produce, and every
    handler returns. *)
Inductive runs : World → list Event → World → Prop :=
| runs_nil w : runs w [] w
| runs_cons w e w1 es w2 :
    enabled e w = true → handle e w = Done w1 → runs w1 es w2 →
    runs w (e :: es) w2.

(** The same, as a function. *)
Fixpoint run (es : list Event) (w : World) : option World :=
  match es with
  | [] => Some w
  | e :: es' =>
      if enabled e w then
        match handle e w with
        | Done w1 => run es' w1
        | _ => None
        end
      else None
  end.

End Syncer.

(** ** The missing member functions, after the design document *)

(** Modelled from the spec: [Deliver(message)] of the local registry, which
    [Update] calls in a part of the sources that is missing: a bound receiver
    is invoked with the message, otherwise the message is dropped. *)
Definition Deliver (m : RaySyncMessage) (s : RaySyncer) : RaySyncer :=
  match receivers_ s !! component m with
  | Some (Some receiver) =>
      mkSyncer (node_id_ s) (leader_ s) (cluster_messages_ s) (followers_ s)
               (reporters_ s) (receivers_ s) (received s ++ [(receiver, m)])
  | _ => s
  end.

(** Modelled from the spec: [RaySyncer::Update(from, message)], whose body is
    missing from the sources, as the thin wrapper over [Ingest] the design
    document describes. *)
Definition Update_spec (from : NodeId) (m : RaySyncMessage) (s : RaySyncer)
    : RaySyncer :=
  let '(st, out) := Store.Ingest (node_id_ s) from m (cluster_messages_ s) in
  foldl (λ s' m', Deliver m' s') (set_cluster_messages st s) out.

(** Modelled from the spec: [RaySyncer::Update(from, messages)], body missing
    from the sources: every message of the batch goes through [Ingest]. *)
Definition UpdateBatch_spec (from : NodeId) (batch : RaySyncMessages)
    (s : RaySyncer) : RaySyncer :=
  foldl (λ s' m, Update_spec from m s') s batch.

(** Modelled from the spec: [RaySyncer::SyncMessages(peer)], body missing from
    the sources: an alias for [DrainFor]. *)
Definition SyncMessages_spec (peer : NodeId) (s : RaySyncer)
    : RaySyncMessages * RaySyncer :=
  let '(drained, st) := Store.DrainFor peer (cluster_messages_ s) in
  (drained, set_cluster_messages st s).

(** Modelled from the spec: the constructor [RaySyncer(node_id, io_context)]
    is defined in a part of the sources that is missing; a syncer starts with
    an empty store, no peers and all [k] slots empty. *)
Definition new_syncer (self : NodeId) (k : nat) : RaySyncer :=
  mkSyncer self None ∅ ∅ (replicate k None) (replicate k None) [].

Definition new_world (self : NodeId) (k : nat) : World :=
  mkWorld (new_syncer self k) ∅ 0 [] [].


(** * What the properties are stated with *)

(** The snapshots of the bound reporter slots, in slot order: what a
    collect-and-send tick is to ingest. *)
Definition bound_snapshots (k : nat) (s : RaySyncer) : RaySyncMessages :=
  omap (λ slot : option Reporter, Snapshot <$> slot) (take k (reporters_ s)).

(** Every live reactor has an address below the allocation counter, and
    every live hub-side reactor is the one registered under its node id. *)
Definition followers_ok (w : World) : Prop :=
  (∀ r x, heap w !! r = Some x → r < next_reactor w) ∧
  (∀ r x, heap w !! r = Some x → kind x = ServerSide →
          followers_ (syncer w) !! node_id x = Some r).

(** At most one live hub-side reactor per peer node id. *)
Definition one_reactor_per_peer (w : World) : Prop :=
  ∀ r1 r2 x1 x2,
    heap w !! r1 = Some x1 → heap w !! r2 = Some x2 →
    kind x1 = ServerSide → kind x2 = ServerSide →
    node_id x1 = node_id x2 → r1 = r2.

(** Consecutive writes of reactor [r] are separated by a cool-down: between
    any two of its writes the 100 ms timer was armed and then expired. *)
Definition separated (r : rid) (tr : list Action) : Prop :=
  ∀ i j b1 b2,
    i < j →
    tr !! i = Some (StartWrite r b1) → tr !! j = Some (StartWrite r b2) →
    ∃ a e, i < a ∧ a < e ∧ e < j ∧
           tr !! a = Some (TimerArm r 100) ∧ tr !! e = Some (TimerExpired r).

(** Nothing has happened yet: no action, no posted handler, and the live
    reactors have no write in flight and no wait pending on their timer. *)
Definition quiescent (w : World) : Prop :=
  trace w = [] ∧ io_context_ w = [] ∧
  ∀ r x, heap w !! r = Some x →
         r < next_reactor w ∧ write_in_flight x = false ∧ timer x = None.

(** Where a link stands with respect to its last write: no write since the
    last expiry of the timer, a write with no cool-down armed since, a write
    with the cool-down armed since, or two writes with no cool-down
    between them. *)
Inductive Phase := Fresh | Written | Armed | Violated.

Definition phase_step (r : rid) (p : Phase) (a : Action) : Phase :=
  match a with
  | StartWrite r' _ =>
      if decide (r' = r) then
        match p with Fresh => Written | _ => Violated end
      else p
  | TimerArm r' ms =>
      if decide (r' = r ∧ ms = 100%N) then
        match p with Written => Armed | _ => p end
      else p
  | TimerExpired r' =>
      if decide (r' = r) then
        match p with Armed => Fresh | _ => p end
      else p
  | _ => p
  end.

Definition phase (r : rid) (tr : list Action) : Phase :=
  foldl (phase_step r) Fresh tr.

(** Every write of [r] so far was followed by the arming of the timer, and
    by the arming and an expiry. *)
Definition since_write_armed (r : rid) (tr : list Action) : Prop :=
  ∀ i b, tr !! i = Some (StartWrite r b) →
         ∃ a, i < a ∧ tr !! a = Some (TimerArm r 100).

Definition since_write_cooled (r : rid) (tr : list Action) : Prop :=
  ∀ i b, tr !! i = Some (StartWrite r b) →
         ∃ a e, i < a ∧ a < e ∧
                tr !! a = Some (TimerArm r 100) ∧ tr !! e = Some (TimerExpired r).

(** What can make reactor [r] run [SendMessage]: a posted handler, the
    completion of a write or of the initial metadata, the timer. *)
Definition pending (r : rid) (q : list Task) : nat :=
  length (filter (λ t, t = RaySyncWrite r) q).

Definition tokens (r : rid) (x : Reactor) (q : list Task) : nat :=
  pending r q + Nat.b2n (write_in_flight x)
  + Nat.b2n (bool_decide (is_Some (timer x))) + Nat.b2n (metadata_in_flight x).

Definition flags (x : Reactor) : bool * bool * bool :=
  (write_in_flight x, bool_decide (is_Some (timer x)), metadata_in_flight x).

(** The invariant of the writer loop of reactor [r]: at most one thing can
    make it run [SendMessage], and after a write that one thing is the
    completion of the write, then the timer. *)
Definition writer_inv (r : rid) (w : World) : Prop :=
  phase r (trace w) ≠ Violated ∧
  match heap w !! r with
  | Some x =>
      r < next_reactor w ∧ tokens r x (io_context_ w) ≤ 1 ∧
      (phase r (trace w) = Written →
       tokens r x (io_context_ w) = Nat.b2n (write_in_flight x)) ∧
      (phase r (trace w) = Armed →
       tokens r x (io_context_ w) = Nat.b2n (bool_decide (is_Some (timer x))))
  | None =>
      next_reactor w ≤ r →
      phase r (trace w) = Fresh ∧ pending r (io_context_ w) = 0
  end.

Definition action_reactor (a : Action) : option rid :=
  match a with
  | StartRead r | StartWrite r _ | StartSendInitialMetadata r | Finish r _
  | TimerArm r _ | TimerExpired r => Some r
  | AddInitialMetadata _ _ => None
  end.

(** ** The follower side, and what the further properties count *)

(** What the follower-side constructor hands to the RPC runtime: the call
    of the stub's [StartSync] with the client context, and [StartCall]. *)
Inductive ClientCall :=
| StubStartSync (r : rid) (request_metadata : Metadata)
| StartCall (r : rid).

(** The constructor of [SyncerClientReactor], at the address [make_unique]
    returns: the reactor awaits the initial metadata of the hub, and its
    client context carries [node_id] as request metadata. *)
Definition new_client_reactor (n : NodeId) : Reactor :=
  mkReactor ClientSide n [] [] [] None false true.

Definition construct_client_reactor (n : NodeId) (w : World)
    : rid * list ClientCall * World :=
  let r := next_reactor w in
  let rpc_context_ : Metadata := [("node_id", n)] in
  let x := ResetOutMessage (new_client_reactor n) in
  (r, [StubStartSync r rpc_context_; StartCall r],
   mkWorld (syncer w) (<[r := x]> (heap w)) (S (next_reactor w))
           (io_context_ w) (trace w)).

(** The initial metadata a hub attaches to its response. *)
Definition response_metadata (tr : list Action) : Metadata :=
  omap (λ a, match a with
             | AddInitialMetadata key value => Some (key, value)
             | _ => None
             end) tr.

(** The writes reactor [r] has started. *)
Definition is_write (r : rid) (a : Action) : bool :=
  match a with
  | StartWrite r' _ => bool_decide (r' = r)
  | _ => false
  end.

Definition writes (r : rid) (tr : list Action) : nat :=
  length (filter (λ a, is_write r a = true) tr).

(** The reads reactor [r] has armed, and the posted read handlers. *)
Definition reads (r : rid) (tr : list Action) : nat :=
  length (filter (λ a, a = StartRead r) tr).

Definition posted_reads (r : rid) (q : list Task) : nat :=
  length (filter (λ t, t = ReadDone r) q).

(** At most [k] things can make reactor [r] run [SendMessage].  An address
    not handed out yet has nothing posted for it, and the reactor built
    there starts with one such thing, its handshake: for such an address
    the bound is 1. *)
Definition token_bound (k : nat) (r : rid) (w : World) : Prop :=
  match heap w !! r with
  | Some x => r < next_reactor w ∧ tokens r x (io_context_ w) ≤ k
  | None => next_reactor w ≤ r → k = 1 ∧ pending r (io_context_ w) = 0
  end.

(** Every entry of the peer table points to a live hub-side reactor with
    that node id. *)
Definition followers_live (w : World) : Prop :=
  ∀ n r, followers_ (syncer w) !! n = Some r →
         ∃ x, heap w !! r = Some x ∧ kind x = ServerSide ∧ node_id x = n.


(** The events after which reactor [r] is to arm a read: the completion of
    a read, and the successful end of either handshake. *)
Definition arms_read (r : rid) (e : Event) : nat :=
  match e with
  | RpcReadDone r' _ _ => if decide (r' = r) then 1 else 0
  | RpcSendInitialMetadataDone r' true => if decide (r' = r) then 1 else 0
  | RpcReadInitialMetadataDone r' true _ => if decide (r' = r) then 1 else 0
  | _ => 0
  end.

(** Reactor [r] has not started its writer loop: nothing is posted for it,
    no write is in flight and its timer is not armed. *)
Definition unstarted (r : rid) (w : World) : Prop :=
  match heap w !! r with
  | Some x =>
      r < next_reactor w ∧ pending r (io_context_ w) = 0 ∧
      write_in_flight x = false ∧ timer x = None
  | None => next_reactor w ≤ r → pending r (io_context_ w) = 0
  end.

(** The events that end the handshake of reactor [r] successfully. *)
Definition ends_handshake (r : rid) (e : Event) : bool :=
  match e with
  | RpcSendInitialMetadataDone r' true => bool_decide (r' = r)
  | RpcReadInitialMetadataDone r' true _ => bool_decide (r' = r)
  | _ => false
  end.

(** ** Sample data *)

Definition sample_c5 : RaySyncMessage := mkMessage "C" 0 5 "c5".
Definition sample_c6 : RaySyncMessage := mkMessage "C" 0 6 "c6".
Definition sample_b1 : RaySyncMessage := mkMessage "B" 0 1 "b1".
Definition sample_b2 : RaySyncMessage := mkMessage "B" 0 2 "b2".
Definition sample_h1 : RaySyncMessage := mkMessage "H" 0 1 "h1".

(** A hub ["H"] with one component slot that has accepted peer ["A"]. *)
Definition hub_with_peer : World := (Accept "A" (new_world "H" 1)).2.

(** Peer ["A"] connects, a message for it arrives and is written, a second
    one arrives, and the first write completes. *)
Definition write_then (ok : bool) (last : list (Event)) : list Event :=
  [RpcStartSync [("node_id", "A")]; RpcSendInitialMetadataDone 0 true;
   CallUpdate "B" sample_b1; RunNext; CallUpdate "B" sample_b2;
   RpcWriteDone 0 ok] ++ last.

Definition failed_write_run : list Event := write_then false [RunNext].
Definition cool_down_run : list Event := write_then true [TimerEvent 0 None].

Definition run_spec (k : nat) (es : list Event) (w : World) : option World :=
  run k Update_spec UpdateBatch_spec SyncMessages_spec es w.

(** The same hub with a reporter bound to slot 0. *)
Definition hub_reporting : World :=
  set_syncer (Register 0 (Some (mkReporter sample_h1)) None (syncer hub_with_peer))
             hub_with_peer.

(** The world a run of the hub ["H"] with one component slot ends in. *)
Definition sample_world (es : list Event) : World :=
  default (new_world "H" 1) (run_spec 1 es (new_world "H" 1)).

(** Peer ["A"] connects and the first message for it is being written. *)
Definition first_write_run : list Event :=
  [RpcStartSync [("node_id", "A")]; RpcSendInitialMetadataDone 0 true;
   CallUpdate "B" sample_b1; RunNext].

(** Peer ["A"] connects and sends a batch before anything is there for it. *)
Definition read_run : list Event :=
  [RpcStartSync [("node_id", "A")]; RpcSendInitialMetadataDone 0 true;
   RpcReadDone 0 true [sample_c5]; RunNext; RunNext].

(** Peer ["A"] connects, and the hub gets messages before the handshake has
    completed. *)
Definition early_run : list Event :=
  [RpcStartSync [("node_id", "A")]; CallUpdate "B" sample_b1;
   RpcReadDone 0 true [sample_c5]; RunNext].

(** After the cool-down of peer ["A"] is cancelled, more messages for it
    arrive. *)
Definition after_cancel_run : list Event :=
  [CallUpdate "B" sample_c5; RpcReadDone 0 true [sample_c6]; RunNext].

(** Peer ["A"] connects. *)
Definition connect_run : list Event := [RpcStartSync [("node_id", "A")]].

(** Peer ["A"] is served, its call ends and its reactor is erased. *)
Definition disconnect_run : list Event := failed_write_run ++ [RpcDone 0; RunNext].

(** * Properties *)

(** ** The message store *)

Section StoreFacts.

Import Store.
Implicit Types (self from v : NodeId) (m msg : RaySyncMessage) (st : ClusterMessages) (key : MessageKey) (ver : N).

Lemma lookup_write_for_viewers from m st v :
  write_for_viewers from m st !! v =
  (λ sub, if decide (v = origin_node m ∨ v = from) then sub
          else <[key_of m := m]> sub) <$> st !! v.
Proof.
  unfold write_for_viewers. rewrite map_lookup_imap.
  by destruct (_ !! v).
Qed.

Lemma elem_of_versions_known st key x :
  x ∈ versions_known st key ↔
  ∃ v sub msg, st !! v = Some sub ∧ sub !! key = Some msg ∧ version msg = x.
Proof.
  unfold versions_known. rewrite list_elem_of_omap. split.
  - intros (sub & Hin & Hx). apply list_elem_of_fmap in Hin as ([v sub'] & -> & Hin).
    apply elem_of_map_to_list in Hin. simpl in Hx.
    destruct (sub' !! key) as [msg|] eqn:E; simplify_eq/=. eauto 10.
  - intros (v & sub & msg & Hv & Hk & <-). exists sub. split.
    + apply list_elem_of_fmap. exists (v, sub). split; [done|]. by apply elem_of_map_to_list.
    + by rewrite Hk.
Qed.

Lemma foldr_max_bounds (x : N) (l : list N) :
  foldr N.max x l ∈ x :: l ∧ ∀ y, y ∈ x :: l → (y ≤ foldr N.max x l)%N.
Proof.
  induction l as [|a l [IH1 IH2]]; simpl.
  - split; [left|]. intros y Hy. apply list_elem_of_singleton in Hy. subst. lia.
  - split.
    + destruct (N.max_spec a (foldr N.max x l)) as [[_ ->]|[_ ->]].
      * apply elem_of_cons in IH1 as [->|IH1]; [left|]. by do 2 right.
      * right; left.
    + intros y Hy. apply elem_of_cons in Hy as [->|Hy].
      * assert (x ≤ foldr N.max x l)%N by (apply IH2; left). lia.
      * apply elem_of_cons in Hy as [->|Hy]; [lia|].
        assert (y ≤ foldr N.max x l)%N by (apply IH2; by right). lia.
Qed.

Lemma latest_known_None st key :
  latest_known st key = None ↔ versions_known st key = [].
Proof. unfold latest_known. by destruct (versions_known st key). Qed.

Lemma latest_known_Some st key ver :
  latest_known st key = Some ver →
  ver ∈ versions_known st key ∧ ∀ y, y ∈ versions_known st key → (y ≤ ver)%N.
Proof.
  unfold latest_known. destruct (versions_known st key) as [|x l]; [done|].
  intros [= <-]. apply foldr_max_bounds.
Qed.

Lemma strictly_newer_true st m :
  strictly_newer st m = true ↔
  ∀ y, y ∈ versions_known st (key_of m) → (y < version m)%N.
Proof.
  unfold strictly_newer. destruct (latest_known st (key_of m)) as [lv|] eqn:E.
  - apply latest_known_Some in E as [Hin Hmax]. rewrite N.ltb_lt. split.
    + intros Hlt y Hy. specialize (Hmax _ Hy). lia.
    + intros H. by apply H.
  - apply latest_known_None in E. rewrite E. split; [|done]. intros _ y Hy. by apply elem_of_nil in Hy.
Qed.

Lemma stored_version_Some st v key ver :
  stored_version st v key = Some ver ↔ ∃ msg, entry st v key msg ∧ version msg = ver.
Proof.
  unfold stored_version, entry. split.
  - intros H. destruct (st !! v) as [sub|] eqn:E; simplify_eq/=.
    destruct (sub !! key) as [msg|] eqn:E'; simplify_eq/=. eauto.
  - intros (msg & (sub & -> & Hk) & <-). simpl. by rewrite Hk.
Qed.

Lemma entry_version_known st v key msg :
  entry st v key msg → version msg ∈ versions_known st key.
Proof. intros (sub & ? & ?). apply elem_of_versions_known. eauto 10. Qed.

Lemma Ingest_lookup self from m st v :
  (Ingest self from m st).1 !! v =
  (λ sub, if strictly_newer st m && bool_decide (¬ (v = origin_node m ∨ v = from))
          then <[key_of m := m]> sub else sub) <$> st !! v.
Proof.
  unfold Ingest. destruct (strictly_newer st m); simpl.
  - rewrite lookup_write_for_viewers. destruct (_ !! v); simpl; [|done].
    by repeat case_decide; try case_bool_decide.
  - by destruct (_ !! v).
Qed.

Lemma Ingest_entry self from m st v key msg :
  entry (Ingest self from m st).1 v key msg →
  (strictly_newer st m = true ∧ v ≠ origin_node m ∧ v ≠ from ∧
   key = key_of m ∧ msg = m) ∨ entry st v key msg.
Proof.
  intros (sub & Hl & Hk). rewrite Ingest_lookup in Hl.
  destruct (st !! v) as [sub0|] eqn:E; simplify_eq/=.
  destruct (strictly_newer st m) eqn:Hn; simpl in *; [|right; by exists sub0].
  case_bool_decide as Hv; [|right; by exists sub0].
  destruct (decide (key = key_of m)) as [->|Hne].
  - rewrite lookup_insert_eq in Hk. simplify_eq. left. naive_solver.
  - rewrite lookup_insert_ne in Hk by done. right. by exists sub0.
Qed.

Lemma Ingest_entry_kept self from m st v key msg :
  entry st v key msg →
  entry (Ingest self from m st).1 v key msg ∨
  (entry (Ingest self from m st).1 v key m ∧ key = key_of m ∧
   strictly_newer st m = true).
Proof.
  intros (sub & Hl & Hk). unfold entry. rewrite Ingest_lookup, Hl. simpl.
  destruct (strictly_newer st m) eqn:Hn; simpl; [|left; eauto].
  case_bool_decide; [|left; eauto].
  destruct (decide (key = key_of m)) as [->|Hne].
  - right. split; [|done]. eexists. split; [done|]. apply lookup_insert_eq.
  - left. eexists. split; [done|]. by rewrite lookup_insert_ne.
Qed.

Implicit Types (calls : list (NodeId * RaySyncMessage)) (viewers : list NodeId).

Lemma with_viewers_lookup_Some viewers v (sub : NodeIndexedMessages) :
  with_viewers viewers !! v = Some sub → sub = ∅ ∧ v ∈ viewers.
Proof.
  induction viewers as [|a l IH]; cbn [with_viewers foldr]; [by rewrite lookup_empty|].
  unfold AddViewer. destruct (decide (a = v)) as [->|Hne].
  - rewrite lookup_insert_eq. intros [= <-]. split; [done|left].
  - rewrite lookup_insert_ne by done. intros [-> ?]%IH. split; [done|by right].
Qed.

Lemma with_viewers_elem viewers v :
  v ∈ viewers → with_viewers viewers !! v = Some ∅.
Proof.
  induction viewers as [|a l IH]; cbn [with_viewers foldr]; [by intros ?%elem_of_nil|].
  unfold AddViewer. destruct (decide (a = v)) as [->|Hne].
  - by rewrite lookup_insert_eq.
  - rewrite lookup_insert_ne by done. intros [->|?]%elem_of_cons; [done|]. by apply IH.
Qed.

Lemma with_viewers_no_entry viewers v key msg : ¬ entry (with_viewers viewers) v key msg.
Proof.
  intros (sub & [-> _]%with_viewers_lookup_Some & Hk). by rewrite lookup_empty in Hk.
Qed.

Lemma ingest_all_snoc self calls from m st :
  ingest_all self (calls ++ [(from, m)]) st =
  (Ingest self from m (ingest_all self calls st)).1.
Proof. unfold ingest_all. by rewrite foldl_snoc. Qed.

Lemma ingest_all_viewers self calls st v :
  is_Some (ingest_all self calls st !! v) ↔ is_Some (st !! v).
Proof.
  induction calls as [|[from m] calls IH] using rev_ind; [done|].
  rewrite ingest_all_snoc, Ingest_lookup, fmap_is_Some. apply IH.
Qed.

Lemma ingest_all_provenance self calls viewers v key msg :
  entry (ingest_all self calls (with_viewers viewers)) v key msg →
  key = key_of msg ∧ ∃ from, (from, msg) ∈ calls.
Proof.
  revert v key msg.
  induction calls as [|[from m] calls IH] using rev_ind; intros v key msg He.
  - by apply with_viewers_no_entry in He.
  - rewrite ingest_all_snoc in He.
    apply Ingest_entry in He as [(_ & _ & _ & -> & ->)|He].
    + split; [done|]. exists from. apply elem_of_app. right. left.
    + apply IH in He as [-> [from' Hin]]. split; [done|].
      exists from'. apply elem_of_app. by left.
Qed.

Lemma max_ingested_ge calls from msg :
  (from, msg) ∈ calls →
  ∃ vmax, max_ingested calls (key_of msg) = Some vmax ∧ (version msg ≤ vmax)%N.
Proof.
  intros Hin. unfold max_ingested.
  assert (version msg ∈ version <$> filter (λ m, key_of m = key_of msg) calls.*2) as Hv.
  { apply list_elem_of_fmap. exists msg. split; [done|].
    apply list_elem_of_filter. split; [done|].
    apply list_elem_of_fmap. by exists (from, msg). }
  destruct (version <$> _) as [|x l]; [by apply elem_of_nil in Hv|].
  eexists. split; [done|]. by apply foldr_max_bounds.
Qed.

Lemma max_ingested_attained calls key vmax :
  max_ingested calls key = Some vmax →
  (∃ from msg, (from, msg) ∈ calls ∧ key_of msg = key ∧ version msg = vmax) ∧
  ∀ from msg, (from, msg) ∈ calls → key_of msg = key → (version msg ≤ vmax)%N.
Proof.
  unfold max_ingested. intros H.
  destruct (version <$> _) as [|x l] eqn:E; simplify_eq.
  destruct (foldr_max_bounds x l) as [Hin Hmax]. rewrite <- E in Hin. split.
  - apply list_elem_of_fmap in Hin as (msg & Hv & Hin).
    apply list_elem_of_filter in Hin as [Hk Hin].
    apply list_elem_of_fmap in Hin as ([from msg'] & -> & Hin). eauto.
  - intros from msg Hc Hk. apply Hmax. rewrite <- E.
    apply list_elem_of_fmap. exists msg. split; [done|].
    apply list_elem_of_filter. split; [done|].
    apply list_elem_of_fmap. by exists (from, msg).
Qed.

Lemma ingest_all_app self calls1 calls2 st :
  ingest_all self (calls1 ++ calls2) st = ingest_all self calls2 (ingest_all self calls1 st).
Proof. unfold ingest_all. by rewrite foldl_app. Qed.

Lemma ingest_all_cons self from m calls st :
  ingest_all self ((from, m) :: calls) st = ingest_all self calls (Ingest self from m st).1.
Proof. done. Qed.

Lemma Ingest_entry_new self from m st v :
  strictly_newer st m = true → is_Some (st !! v) →
  v ≠ origin_node m → v ≠ from →
  entry (Ingest self from m st).1 v (key_of m) m.
Proof.
  intros Hn [sub Hsub] Ho Hf. unfold entry. rewrite Ingest_lookup, Hsub, Hn. simpl.
  rewrite bool_decide_true by (by intros [?|?]).
  eexists. split; [done|]. apply lookup_insert_eq.
Qed.

Lemma ingest_all_keeps_max self calls st v M :
  (∀ from m, (from, m) ∈ calls → key_of m = key_of M → (version m ≤ version M)%N) →
  entry st v (key_of M) M →
  entry (ingest_all self calls st) v (key_of M) M.
Proof.
  induction calls as [|[from m] calls IH] using rev_ind; intros Hle He; [done|].
  rewrite ingest_all_snoc.
  assert (entry (ingest_all self calls st) v (key_of M) M) as He'.
  { apply IH; [|done]. intros from' m' Hin. apply (Hle from'), elem_of_app. by left. }
  destruct (Ingest_entry_kept self from m _ _ _ _ He') as [?|(_ & Hk & Hn)]; [done|].
  exfalso. apply strictly_newer_true with (y := version M) in Hn.
  - assert (version m ≤ version M)%N; [|lia].
    apply (Hle from); [|done]. apply elem_of_app. right. left.
  - rewrite <- Hk. by eapply entry_version_known.
Qed.

Lemma ingest_all_max self viewers pre f M post v :
  (∀ from m, (from, m) ∈ pre → key_of m = key_of M → (version m < version M)%N) →
  (∀ from m, (from, m) ∈ post → key_of m = key_of M → (version m ≤ version M)%N) →
  v ∈ viewers → v ≠ origin_node M → v ≠ f →
  entry (ingest_all self (pre ++ (f, M) :: post) (with_viewers viewers)) v (key_of M) M.
Proof.
  intros Hpre Hpost Hv Ho Hf. rewrite ingest_all_app, ingest_all_cons.
  apply ingest_all_keeps_max; [done|].
  apply Ingest_entry_new; [|by apply ingest_all_viewers; rewrite with_viewers_elem|done..].
  apply strictly_newer_true. intros y Hy.
  apply elem_of_versions_known in Hy as (v' & sub & msg & Hl & Hk & <-).
  destruct (ingest_all_provenance self pre viewers v' (key_of M) msg) as [Hkey [from Hin]].
  { by exists sub. }
  by eapply Hpre.
Qed.

Lemma Ingest_discards self from m st known :
  latest_known st (key_of m) = Some known → (version m ≤ known)%N →
  Ingest self from m st = (st, []).
Proof.
  intros Hl Hle. unfold Ingest, strictly_newer. rewrite Hl.
  by rewrite (proj2 (N.ltb_ge _ _) Hle).
Qed.

Lemma Ingest_stored_version_mono self from m st v key old :
  stored_version st v key = Some old →
  ∃ new, stored_version (Ingest self from m st).1 v key = Some new ∧
         (new = old ∨ (old < new)%N).
Proof.
  intros (msg & He & <-)%stored_version_Some.
  destruct (Ingest_entry_kept self from m _ _ _ _ He) as [He'|(He' & -> & Hn)].
  - exists (version msg). split; [|by left]. apply stored_version_Some. eauto.
  - exists (version m). split; [apply stored_version_Some; eauto|]. right.
    eapply strictly_newer_true; [done|]. by eapply entry_version_known.
Qed.

Implicit Types (ops : list Op).

Lemma run_ops_snoc self ops op st :
  run_ops self (ops ++ [op]) st = apply_op self op (run_ops self ops st).
Proof. unfold run_ops. by rewrite foldl_snoc. Qed.

Lemma AddViewer_entry v' st v key msg :
  entry (AddViewer v' st) v key msg → entry st v key msg.
Proof.
  intros (sub & Hl & Hk). unfold AddViewer in Hl.
  destruct (decide (v' = v)) as [->|Hne].
  - rewrite lookup_insert_eq in Hl. by simplify_eq.
  - rewrite lookup_insert_ne in Hl by done. by exists sub.
Qed.

Lemma RemoveViewer_entry v' st v key msg :
  entry (RemoveViewer v' st) v key msg → entry st v key msg.
Proof.
  intros (sub & Hl & Hk). unfold RemoveViewer in Hl.
  apply lookup_delete_Some in Hl as [_ Hl]. by exists sub.
Qed.

Lemma DrainFor_entry v' st v key msg :
  entry (DrainFor v' st).2 v key msg → entry st v key msg.
Proof.
  unfold DrainFor. destruct (st !! v') as [sub'|] eqn:E; simpl; [|done].
  apply AddViewer_entry.
Qed.

Lemma DrainFor_elem v st msg :
  msg ∈ (DrainFor v st).1 ↔ ∃ key, entry st v key msg.
Proof.
  unfold DrainFor, entry. destruct (st !! v) as [sub|] eqn:E; simpl.
  - rewrite list_elem_of_fmap. split.
    + intros ([key msg'] & -> & Hin%elem_of_map_to_list). eauto.
    + intros (key & sub' & [= <-] & Hk). exists (key, msg). split; [done|].
      by apply elem_of_map_to_list.
  - split; [by intros ?%elem_of_nil|]. intros (? & ? & ? & ?). done.
Qed.

Lemma run_ops_provenance self ops v key msg :
  entry (run_ops self ops ∅) v key msg →
  key = key_of msg ∧ origin_node msg ≠ v ∧
  ∃ sender, sender ≠ v ∧ OpIngest sender msg ∈ ops.
Proof.
  revert v key msg.
  induction ops as [|op ops IH] using rev_ind; intros v key msg He.
  - destruct He as (sub & Hl & _). cbn in Hl. by rewrite lookup_empty in Hl.
  - rewrite run_ops_snoc in He.
    assert (entry (run_ops self ops ∅) v key msg →
            key = key_of msg ∧ origin_node msg ≠ v ∧
            ∃ sender, sender ≠ v ∧ OpIngest sender msg ∈ (ops ++ [op])) as Hold.
    { intros (-> & ? & sender & ? & ?)%IH. repeat split; [done|].
      exists sender. split; [done|]. apply elem_of_app. by left. }
    destruct op as [v'|v'|from m|v']; simpl in He.
    + by apply Hold, AddViewer_entry with v'.
    + by apply Hold, RemoveViewer_entry with v'.
    + apply Ingest_entry in He as [(_ & Ho & Hf & -> & ->)|He]; [|by apply Hold].
      repeat split; [done|]. exists from. split; [done|].
      apply elem_of_app. right. left.
    + by apply Hold, DrainFor_entry with v'.
Qed.

Lemma Ingest_sender_untouched self from m st :
  (Ingest self from m st).1 !! from = st !! from.
Proof.
  rewrite Ingest_lookup. rewrite bool_decide_false by naive_solver.
  rewrite andb_false_r. by destruct (_ !! from).
Qed.

Lemma Ingest_origin_untouched self from m st :
  (Ingest self from m st).1 !! origin_node m = st !! origin_node m.
Proof.
  rewrite Ingest_lookup. rewrite bool_decide_false by naive_solver.
  rewrite andb_false_r. by destruct (_ !! origin_node m).
Qed.

End StoreFacts.

Section StoreClaims.

Import Store.

Implicit Types (self from v : NodeId) (m msg : RaySyncMessage).
Implicit Types (st : ClusterMessages) (key : MessageKey) (ver : N).
Implicit Types (calls : list (NodeId * RaySyncMessage)) (viewers : list NodeId).
Implicit Types (ops : list Op).

Lemma max_ingested_first_max calls pre f M post :
  calls = pre ++ (f, M) :: post →
  (∀ from m, (from, m) ∈ pre → key_of m = key_of M → (version m < version M)%N) →
  (∀ from m, (from, m) ∈ post → key_of m = key_of M → (version m ≤ version M)%N) →
  max_ingested calls (key_of M) = Some (version M).
Proof.
  intros -> Hpre Hpost.
  destruct (max_ingested_ge (pre ++ (f, M) :: post) f M) as (vmax & Hmax & Hle).
  { apply elem_of_app. right. left. }
  rewrite Hmax. f_equal.
  destruct (max_ingested_attained _ _ _ Hmax) as [(from & msg & Hin & Hk & <-) _].
  apply elem_of_app in Hin as [Hin|Hin].
  - specialize (Hpre _ _ Hin Hk). lia.
  - apply elem_of_cons in Hin as [[= _ ->]|Hin]; [done|].
    specialize (Hpost _ _ Hin Hk). lia.
Qed.

(** C1 (amended).  After any sequence of [Ingest] calls on a store whose
    viewers start with empty sub-maps: a message whose version is not
    strictly greater than the latest-known version for its key is discarded;
    the version stored for a key at a viewer never exceeds the maximum
    version ever ingested for that key, and equals it at every viewer other
    than the origin and the sender of the first message carrying that
    maximum; and a further call replaces a stored entry only by a strictly
    newer version. *)
Theorem ingest_versions_monotone self viewers calls :
  (∀ from m known,
     latest_known (ingest_all self calls (with_viewers viewers)) (key_of m)
       = Some known →
     (version m ≤ known)%N →
     Ingest self from m (ingest_all self calls (with_viewers viewers))
       = (ingest_all self calls (with_viewers viewers), [])) ∧
  (∀ v key ver,
     stored_version (ingest_all self calls (with_viewers viewers)) v key
       = Some ver →
     ∃ vmax, max_ingested calls key = Some vmax ∧ (ver ≤ vmax)%N) ∧
  (∀ pre f M post v,
     calls = pre ++ (f, M) :: post →
     (∀ from m, (from, m) ∈ pre → key_of m = key_of M →
                (version m < version M)%N) →
     (∀ from m, (from, m) ∈ post → key_of m = key_of M →
                (version m ≤ version M)%N) →
     v ∈ viewers → v ≠ origin_node M → v ≠ f →
     max_ingested calls (key_of M) = Some (version M) ∧
     stored_version (ingest_all self calls (with_viewers viewers)) v (key_of M)
       = Some (version M)) ∧
  (∀ from m v key old,
     stored_version (ingest_all self calls (with_viewers viewers)) v key
       = Some old →
     ∃ new,
       stored_version
         (Ingest self from m (ingest_all self calls (with_viewers viewers))).1
         v key = Some new ∧
       (new = old ∨ (old < new)%N)).
Proof.
  repeat split.
  - intros from m known. apply Ingest_discards.
  - intros v key ver (msg & He & <-)%stored_version_Some.
    apply ingest_all_provenance in He as [-> [from Hin]].
    by eapply max_ingested_ge.
  - by eapply max_ingested_first_max.
  - subst calls. apply stored_version_Some. exists M. split; [|done].
    by apply ingest_all_max.
  - intros from m v key old. apply Ingest_stored_version_mono.
Qed.

(** C2 (amended).  In a store reached by any sequence of operations from the
    empty store: an accepted message is written for every known viewer but
    its origin and its sender; no viewer holds an entry whose origin is that
    viewer; a call with sender [from] leaves the sub-map of [from] as it
    was, so the drain for [from] returns what it would have returned before
    the call; and what a drain for a viewer returns was queued by a call
    with another sender. *)
Theorem ingest_skips_origin_and_sender self ops from m v :
  (strictly_newer (run_ops self ops ∅) m = true →
   ∀ sub : NodeIndexedMessages,
     run_ops self ops ∅ !! v = Some sub →
     (Ingest self from m (run_ops self ops ∅)).1 !! v =
       Some (if decide (v = origin_node m ∨ v = from) then sub
             else <[key_of m := m]> sub)) ∧
  (∀ (sub : NodeIndexedMessages) key msg,
     run_ops self ops ∅ !! v = Some sub → sub !! key = Some msg →
     origin_node msg ≠ v) ∧
  (Ingest self from m (run_ops self ops ∅)).1 !! from
    = run_ops self ops ∅ !! from ∧
  (DrainFor from (Ingest self from m (run_ops self ops ∅)).1).1
    = (DrainFor from (run_ops self ops ∅)).1 ∧
  (∀ msg, msg ∈ (DrainFor v (run_ops self ops ∅)).1 →
          ∃ sender, sender ≠ v ∧ OpIngest sender msg ∈ ops).
Proof.
  repeat split.
  - intros Hn sub Hsub. unfold Ingest. rewrite Hn. simpl.
    by rewrite lookup_write_for_viewers, Hsub.
  - intros sub key msg Hsub Hk.
    destruct (run_ops_provenance self ops v key msg) as (_ & ? & _); [|done].
    by exists sub.
  - apply Ingest_sender_untouched.
  - unfold DrainFor. rewrite Ingest_sender_untouched. by destruct (_ !! from).
  - intros msg [key He]%DrainFor_elem.
    by destruct (run_ops_provenance self ops v key msg) as (_ & _ & ?).
Qed.

End StoreClaims.
(** ** The reactors *)

Section ReactorFacts.

Variable kComponentArraySize : nat.
Variable Update : NodeId → RaySyncMessage → RaySyncer → RaySyncer.
Variable UpdateBatch : NodeId → RaySyncMessages → RaySyncer → RaySyncer.
Variable SyncMessages : NodeId → RaySyncer → RaySyncMessages * RaySyncer.

Local Abbreviation SendMessage' := (SendMessage kComponentArraySize Update SyncMessages).
Local Abbreviation handle' :=
  (handle kComponentArraySize Update UpdateBatch SyncMessages).
Local Abbreviation run_task' :=
  (run_task kComponentArraySize Update UpdateBatch SyncMessages).
Local Abbreviation collect' := (collect_snapshots Update).

Implicit Types (r : rid) (w : World) (x : Reactor) (s : RaySyncer).

Lemma with_reactor_live r w x f :
  heap w !! r = Some x → with_reactor r w f = f x.
Proof. unfold with_reactor. by intros ->. Qed.

Lemma heap_set_reactor r x w : heap (set_reactor r x w) !! r = Some x.
Proof. apply lookup_insert_eq. Qed.

Lemma with_reactor_set r x w f : with_reactor r (set_reactor r x w) f = f x.
Proof. unfold with_reactor. cbn. by rewrite lookup_insert_eq. Qed.

(** The loop over the slots ingests the bound slots' snapshots in slot
    order, provided [Update] leaves the registry and the node id alone. *)
Lemma collect_snapshots_from n i s :
  (∀ from m s', reporters_ (Update from m s') = reporters_ s' ∧
                node_id_ (Update from m s') = node_id_ s') →
  collect' n i s =
  foldl (λ s' m, Update (node_id_ s) m s') s
        (omap (λ slot : option Reporter, Snapshot <$> slot)
              (take n (drop i (reporters_ s)))).
Proof.
  intros HU. revert i s. induction n as [|n IH]; intros i s; [done|].
  cbn [collect_snapshots].
  destruct (reporters_ s !! i) as [slot|] eqn:E.
  - rewrite (drop_S _ _ _ E). cbn [take omap list_omap].
    destruct slot as [reporter|]; simpl.
    + rewrite IH. destruct (HU (GetNodeId s) (Snapshot reporter) s) as [-> ->].
      done.
    + apply IH.
  - rewrite IH. rewrite (drop_ge (reporters_ s) i) by by apply lookup_ge_None.
    rewrite (drop_ge (reporters_ s) (S i))
      by (apply lookup_ge_None in E; lia).
    by rewrite take_nil.
Qed.

Lemma collect_snapshots_bound s :
  (∀ from m s', reporters_ (Update from m s') = reporters_ s' ∧
                node_id_ (Update from m s') = node_id_ s') →
  collect' kComponentArraySize 0 s =
  foldl (λ s' m, Update (node_id_ s) m s') s
        (bound_snapshots kComponentArraySize s).
Proof. intros HU. by rewrite collect_snapshots_from. Qed.

(** C8.  A collect-and-send tick of a live reactor first ingests, with the
    local node id as sender, the snapshot of every bound reporter slot, in
    slot order and skipping the unbound slots; it then drains the store for
    its peer, and writes one batch holding the drained messages exactly when
    there are any (with an empty drain, no write is started and the timer is
    armed instead). *)
Theorem send_message_collects_then_writes r w x :
  (∀ from m s', reporters_ (Update from m s') = reporters_ s' ∧
                node_id_ (Update from m s') = node_id_ s') →
  heap w !! r = Some x →
  ∃ w',
    SendMessage kComponentArraySize Update SyncMessages r w = Done w' ∧
    syncer w' =
      (SyncMessages (node_id x)
         (foldl (λ s' m, Update (node_id_ (syncer w)) m s') (syncer w)
                (bound_snapshots kComponentArraySize (syncer w)))).2 ∧
    buffer <$> heap w' !! r =
      Some (SyncMessages (node_id x)
              (foldl (λ s' m, Update (node_id_ (syncer w)) m s') (syncer w)
                     (bound_snapshots kComponentArraySize (syncer w)))).1 ∧
    io_context_ w' = io_context_ w ∧
    trace w' = trace w ++
      match (SyncMessages (node_id x)
               (foldl (λ s' m, Update (node_id_ (syncer w)) m s') (syncer w)
                      (bound_snapshots kComponentArraySize (syncer w)))).1 with
      | [] => [TimerArm r 100]
      | batch => [StartWrite r batch]
      end.
Proof.
  intros HU Hr. unfold SendMessage. rewrite (with_reactor_live _ _ _ _ Hr).
  rewrite collect_snapshots_bound by done.
  destruct (SyncMessages _ _) as [drained s2]. simpl.
  destruct drained as [|m drained].
  - unfold OnWriteDone.
    erewrite with_reactor_live by apply heap_set_reactor.
    eexists. split; [done|]. simpl. by rewrite lookup_insert_eq.
  - eexists. split; [done|]. simpl. by rewrite lookup_insert_eq.
Qed.

(** C10.  When a read completes successfully, nothing is ingested in the
    callback: a handler is posted to the executor, and when the executor
    runs it the inbound batch goes to [Update] with the peer as sender, the
    inbound frame is cleared and the read is re-armed.  When a read completes
    with failure, the read is re-armed and nothing else happens. *)
Theorem read_done_updates_and_rearms r w x batch :
  heap w !! r = Some x → io_context_ w = [] →
  (∃ w1 w2,
     handle kComponentArraySize Update UpdateBatch SyncMessages (RpcReadDone r true batch) w = Done w1 ∧
     syncer w1 = syncer w ∧ trace w1 = trace w ∧
     io_context_ w1 = [ReadDone r] ∧
     handle kComponentArraySize Update UpdateBatch SyncMessages RunNext w1 = Done w2 ∧
     syncer w2 = UpdateBatch (node_id x) batch (syncer w) ∧
     in_message <$> heap w2 !! r = Some [] ∧
     io_context_ w2 = [] ∧
     trace w2 = trace w ++ [StartRead r]) ∧
  (∃ w1,
     handle kComponentArraySize Update UpdateBatch SyncMessages (RpcReadDone r false batch) w = Done w1 ∧
     syncer w1 = syncer w ∧ heap w1 = heap w ∧
     io_context_ w1 = [] ∧
     trace w1 = trace w ++ [StartRead r]).
Proof.
  intros Hr Hq. split.
  - do 2 eexists. cbn [handle]. rewrite (with_reactor_live _ _ _ _ Hr).
    unfold OnReadDone. erewrite with_reactor_live by apply heap_set_reactor.
    split; [reflexivity|]. cbn. rewrite Hq. cbn.
    unfold run_ReadDone. erewrite with_reactor_live by apply heap_set_reactor.
    do 4 (split; [reflexivity|]). cbn. by rewrite lookup_insert_eq.
  - eexists. cbn [handle]. rewrite (with_reactor_live _ _ _ _ Hr).
    unfold OnReadDone. rewrite (with_reactor_live _ _ _ _ Hr).
    split; [reflexivity|]. by rewrite <- Hq.
Qed.

(** C7 (amended).  When a write completes with failure, the reactor posts
    another collect-and-send to the executor at once: it is not torn down, no
    [Finish] is issued, the store and the peer table are untouched and no
    cool-down is armed. *)
Theorem write_failure_posts_send_message r w x :
  heap w !! r = Some x →
  ∃ w1,
    handle kComponentArraySize Update UpdateBatch SyncMessages (RpcWriteDone r false) w = Done w1 ∧
    syncer w1 = syncer w ∧
    heap w1 = <[r := set_write_in_flight false x]> (heap w) ∧
    trace w1 = trace w ∧
    io_context_ w1 = io_context_ w ++ [RaySyncWrite r] ∧
    run_task kComponentArraySize Update UpdateBatch SyncMessages (RaySyncWrite r) w1 = SendMessage kComponentArraySize Update SyncMessages r w1.
Proof.
  intros Hr. eexists. cbn [handle]. rewrite (with_reactor_live _ _ _ _ Hr).
  unfold OnWriteDone. erewrite with_reactor_live by apply heap_set_reactor.
  by split; [reflexivity|].
Qed.

(** C4 (amended).  On stream completion the reactor posts a handler to the
    executor which, when run, erases the entry of [followers_] under the
    reactor's node id; the message store is left as it is, the sub-map of the
    peer included. *)
Theorem on_done_erases_follower_only r w x :
  heap w !! r = Some x → io_context_ w = [] →
  ∃ w1 w2,
    handle kComponentArraySize Update UpdateBatch SyncMessages (RpcDone r) w = Done w1 ∧
    syncer w1 = syncer w ∧ heap w1 = heap w ∧ trace w1 = trace w ∧
    io_context_ w1 = [RaySyncDone r] ∧
    handle kComponentArraySize Update UpdateBatch SyncMessages RunNext w1 = Done w2 ∧
    followers_ (syncer w2) = delete (node_id x) (followers_ (syncer w)) ∧
    cluster_messages_ (syncer w2) = cluster_messages_ (syncer w) ∧
    trace w2 = trace w.
Proof.
  intros Hr Hq. do 2 eexists. cbn [handle]. unfold OnDone.
  rewrite (with_reactor_live _ _ _ _ Hr).
  split; [reflexivity|]. cbn. rewrite Hq. cbn.
  do 4 (split; [reflexivity|]).
  unfold run_RaySyncDone, with_reactor. cbn. rewrite Hr.
  split; [reflexivity|]. by destruct (followers_ (syncer w) !! node_id x).
Qed.

Lemma metadata_find_None key (md : Metadata) :
  metadata_find key md = None ↔ ∀ value, (key, value) ∉ md.
Proof.
  unfold metadata_find. rewrite fmap_None, list_find_None, list.Forall_forall.
  split.
  - intros H value Hin. by apply (H _ Hin).
  - intros H [k value] Hin Hk. simpl in Hk. subst. by apply (H value).
Qed.

(** C5 (amended).  For an inbound stream whose request metadata lacks the key
    [node_id], [StartSync] fails its check and the process aborts: no status
    is returned and no reactor is created.  When the key is present, the
    response metadata [node_id = self] is attached and the result is that of
    [Accept] for the peer. *)
Theorem start_sync_requires_node_id (client_metadata : Metadata) w :
  ((∀ value, ("node_id", value) ∉ client_metadata) →
   StartSync client_metadata w = Abort) ∧
  (∀ peer, metadata_find "node_id" client_metadata = Some peer →
     StartSync client_metadata w =
       Done (Accept peer
               (emit (AddInitialMetadata "node_id" (node_id_ (syncer w))) w)) ∧
     ∃ reactor w',
       StartSync client_metadata w = Done (Some reactor, w') ∧
       followers_ (syncer w') !! peer = Some reactor ∧
       AddInitialMetadata "node_id" (node_id_ (syncer w)) ∈ trace w').
Proof.
  split.
  - intros Hno%metadata_find_None. unfold StartSync. by rewrite Hno.
  - intros peer Hfind. unfold StartSync. rewrite Hfind. split; [done|].
    unfold Accept. cbn.
    case_bool_decide as Hf; cbn.
    + do 2 eexists. rewrite lookup_insert_eq. split; [reflexivity|]. cbn.
      rewrite lookup_insert_eq. split; [done|].
      apply elem_of_app. left. apply elem_of_app. right. left.
    + destruct (followers_ (syncer w) !! peer) as [old|] eqn:E; [|done].
      do 2 eexists. split; [reflexivity|]. cbn. split; [done|].
      apply elem_of_app. left. apply elem_of_app. right. left.
Qed.

(** C6 (amended).  [Register] checks nothing: a second call for the same slot
    returns like the first and rebinds the slot, so that the slot holds the
    reporter and the receiver of the last call. *)
Theorem register_twice_rebinds (c : RayComponentId)
    (reporter1 reporter2 : option Reporter)
    (receiver1 receiver2 : option Receiver) w :
  ∃ w1 w2,
    handle kComponentArraySize Update UpdateBatch SyncMessages (CallRegister c reporter1 receiver1) w = Done w1 ∧
    handle kComponentArraySize Update UpdateBatch SyncMessages (CallRegister c reporter2 receiver2) w1 = Done w2 ∧
    reporters_ (syncer w2) = <[c := reporter2]> (reporters_ (syncer w)) ∧
    receivers_ (syncer w2) = <[c := receiver2]> (receivers_ (syncer w)) ∧
    w2 = set_syncer (Register c reporter2 receiver2 (syncer w)) w.
Proof.
  do 2 eexists. do 2 (split; [reflexivity|]).
  unfold set_syncer, Register. cbn. by rewrite !list_insert_insert_eq.
Qed.

End ReactorFacts.

(** ** The writer loop and its cool-down *)

Lemma phase_snoc r tr a : phase r (tr ++ [a]) = phase_step r (phase r tr) a.
Proof. unfold phase. by rewrite foldl_snoc. Qed.

Lemma lookup_snoc_Some {A} (l : list A) (x y : A) i :
  (l ++ [x]) !! i = Some y → (i < length l ∧ l !! i = Some y) ∨ (i = length l ∧ x = y).
Proof.
  intros H. destruct (decide (i < length l)) as [Hlt|Hge].
  - left. split; [done|]. by rewrite lookup_app_l in H.
  - right. rewrite lookup_app_r in H by lia.
    destruct (i - length l) as [|n] eqn:E; simpl in H; [|done].
    split; [lia|congruence].
Qed.

Lemma lookup_snoc_keep {A} (l : list A) (x y : A) i :
  l !! i = Some y → (l ++ [x]) !! i = Some y.
Proof. intros H. rewrite lookup_app_l; [done|]. by eapply lookup_lt_Some. Qed.

Lemma phase_meaning r tr :
  phase r tr ≠ Violated →
  separated r tr ∧
  (phase r tr = Fresh → since_write_cooled r tr) ∧
  (phase r tr = Armed → since_write_armed r tr).
Proof.
  induction tr as [|a tr IH] using rev_ind.
  - intros _. repeat split.
    + intros i j b1 b2 _ H. by rewrite lookup_nil in H.
    + intros _ i b H. by rewrite lookup_nil in H.
    + done.
  - rewrite phase_snoc. intros Hv.
    assert (phase r tr ≠ Violated) as Hv'.
    { intros E. rewrite E in Hv. destruct a; simpl in Hv; repeat case_decide; done. }
    destruct (IH Hv') as (Hsep & Hfresh & Harmed). clear IH.
    (* old writes keep their witnesses *)
    assert (∀ a', (∀ b, a' ≠ StartWrite r b) → separated r tr → separated r (tr ++ [a'])) as Hsep_keep.
    { intros a' Ha' Hs i j b1 b2 Hij Hi Hj.
      apply lookup_snoc_Some in Hj as [[Hj1 Hj]|[_ ->]]; [|by destruct (Ha' b2)].
      apply lookup_snoc_Some in Hi as [[_ Hi]|[-> _]]; [|lia].
      destruct (Hs i j b1 b2 Hij Hi Hj) as (x & e & ? & ? & ? & ? & ?).
      exists x, e. repeat split; try done; by apply lookup_snoc_keep. }
    assert (∀ a', (∀ b, a' ≠ StartWrite r b) → since_write_cooled r tr → since_write_cooled r (tr ++ [a'])) as Hcool_keep.
    { intros a' Ha' Hs i b Hi.
      apply lookup_snoc_Some in Hi as [[_ Hi]|[_ ->]]; [|by destruct (Ha' b)].
      destruct (Hs i b Hi) as (x & e & ? & ? & ? & ?). exists x, e. repeat split; try done; by apply lookup_snoc_keep. }
    assert (∀ a', (∀ b, a' ≠ StartWrite r b) → since_write_armed r tr → since_write_armed r (tr ++ [a'])) as Harm_keep.
    { intros a' Ha' Hs i b Hi.
      apply lookup_snoc_Some in Hi as [[_ Hi]|[_ ->]]; [|by destruct (Ha' b)].
      destruct (Hs i b Hi) as (x & ? & ?). exists x. split; [done|by apply lookup_snoc_keep]. }
    destruct a as [r'|r' batch|r'|r' status|k v|r' ms|r']; simpl in *.
    1,3,4,5: (split; [by apply Hsep_keep|]; split; intros E; [by apply Hcool_keep, Hfresh|by apply Harm_keep, Harmed]).
    + (* StartWrite *)
      case_decide as Hr; [subst r'|].
      * destruct (phase r tr) eqn:Eph; try done. clear Hv.
        repeat split; try done.
        intros i j b1 b2 Hij Hi Hj.
        apply lookup_snoc_Some in Hi as [[Hil Hi]|[-> _]]; [|apply lookup_lt_Some in Hj; rewrite length_app in Hj; simpl in Hj; lia].
        apply lookup_snoc_Some in Hj as [[_ Hj]|[-> _]].
        -- destruct (Hsep i j b1 b2 Hij Hi Hj) as (x & e & ? & ? & ? & ? & ?). exists x, e. repeat split; try done; by apply lookup_snoc_keep.
        -- destruct (Hfresh eq_refl i b1 Hi) as (x & e & ? & ? & Hx & He).
           exists x, e. pose proof (lookup_lt_Some _ _ _ He). repeat split; try done; by apply lookup_snoc_keep.
      * assert (∀ b, StartWrite r' batch ≠ StartWrite r b) as Hne by (intros b [= ? _]; done).
        split; [by apply Hsep_keep|]; split; intros E; [by apply Hcool_keep, Hfresh|by apply Harm_keep, Harmed].
    + (* TimerArm *)
      split; [by apply Hsep_keep|].
      case_decide as Hr.
      * destruct Hr as [-> ->]. destruct (phase r tr) eqn:Eph; try done.
        -- split; [|done]. intros _. by apply Hcool_keep, Hfresh.
        -- split; [done|]. intros _ i b Hi.
           apply lookup_snoc_Some in Hi as [[Hil Hi]|[_ ?]]; [|done].
           exists (length tr). split; [done|]. by rewrite lookup_app_r, Nat.sub_diag by lia.
        -- split; [done|]. intros _. by apply Harm_keep, Harmed.
      * split; intros E; [by apply Hcool_keep, Hfresh|by apply Harm_keep, Harmed].
    + (* TimerExpired *)
      split; [by apply Hsep_keep|].
      case_decide as Hr.
      * subst r'. destruct (phase r tr) eqn:Eph; try done.
        -- split; [|done]. intros _. by apply Hcool_keep, Hfresh.
        -- split; [|done]. intros _ i b Hi.
           apply lookup_snoc_Some in Hi as [[Hil Hi]|[_ ?]]; [|done].
           destruct (Harmed eq_refl i b Hi) as (x & ? & Hx).
           exists x, (length tr). pose proof (lookup_lt_Some _ _ _ Hx).
           repeat split; [done|done|by apply lookup_snoc_keep|].
           by rewrite lookup_app_r, Nat.sub_diag by lia.
      * split; intros E; [by apply Hcool_keep, Hfresh|by apply Harm_keep, Harmed].
Qed.

Lemma pending_snoc r q t :
  pending r (q ++ [t]) = pending r q + (if decide (t = RaySyncWrite r) then 1 else 0).
Proof.
  unfold pending. rewrite list.filter_app, length_app. f_equal.
  rewrite list.filter_cons, list.filter_nil. by case_decide.
Qed.

Lemma pending_cons r q t :
  pending r (t :: q) = (if decide (t = RaySyncWrite r) then 1 else 0) + pending r q.
Proof. unfold pending. rewrite list.filter_cons. by case_decide. Qed.

Lemma phase_step_other r0 p a : action_reactor a ≠ Some r0 → phase_step r0 p a = p.
Proof.
  destruct a; simpl; intros H; try done; case_decide as E; try done;
    exfalso; apply H; f_equal; first [exact E | exact (proj1 E)].
Qed.

Lemma phase_step_quiet r0 p a :
  (∀ b, a ≠ StartWrite r0 b) → a ≠ TimerArm r0 100 → a ≠ TimerExpired r0 →
  phase_step r0 p a = p.
Proof.
  destruct a; simpl; intros H1 H2 H3; try done; case_decide; try done.
  - subst. by destruct (H1 batch).
  - destruct H as [-> ->]. done.
  - subst. done.
Qed.

Lemma writer_inv_frame r0 w w' :
  flags <$> heap w' !! r0 = flags <$> heap w !! r0 →
  next_reactor w ≤ next_reactor w' →
  pending r0 (io_context_ w') = pending r0 (io_context_ w) →
  phase r0 (trace w') = phase r0 (trace w) →
  writer_inv r0 w → writer_inv r0 w'.
Proof.
  unfold writer_inv, tokens. intros Hf Hn -> ->. intros [Hv HJ]. split; [done|].
  destruct (heap w !! r0) as [x|], (heap w' !! r0) as [x'|]; simplify_eq/=.
  - rewrite Hf, H, H0.
    destruct HJ as (? & ? & ? & ?). repeat split; try done. lia.
  - intros ?. apply HJ. lia.
Qed.

Lemma writer_inv_dead r0 w w' :
  heap w' !! r0 = None → r0 < next_reactor w' →
  phase r0 (trace w') = phase r0 (trace w) →
  writer_inv r0 w → writer_inv r0 w'.
Proof.
  unfold writer_inv. intros -> Hn ->. intros [Hv _]. split; [done|]. lia.
Qed.

Lemma writer_inv_idle r0 w x :
  heap w !! r0 = Some x → r0 < next_reactor w →
  tokens r0 x (io_context_ w) = 0 →
  phase r0 (trace w) ≠ Violated →
  writer_inv r0 w.
Proof.
  unfold writer_inv. intros -> Hn Ht Hv. split; [done|].
  unfold tokens in *. repeat split; try done; intros; destruct (write_in_flight x), (timer x); simpl in *; lia.
Qed.

Section WriterLoop.
Variable kComponentArraySize : nat.
Variable Update : NodeId → RaySyncMessage → RaySyncer → RaySyncer.
Variable UpdateBatch : NodeId → RaySyncMessages → RaySyncer → RaySyncer.
Variable SyncMessages : NodeId → RaySyncer → RaySyncMessages * RaySyncer.
Local Abbreviation SendMessage' := (SendMessage kComponentArraySize Update SyncMessages).
Local Abbreviation handle' := (handle kComponentArraySize Update UpdateBatch SyncMessages).

Ltac world_simpl :=
  cbn [heap trace io_context_ next_reactor syncer
       set_reactor set_syncer emit dispatch destroy
       write_in_flight timer metadata_in_flight kind node_id
       set_write_in_flight set_timer set_metadata_in_flight set_in_message
       set_out_message set_buffer set_node_id ResetOutMessage] in *.

Ltac frame_inv :=
  lazymatch goal with
  | H : writer_inv ?r0 ?w |- writer_inv ?r0 _ =>
      apply (writer_inv_frame r0 w); [| | | |exact H]
  | |- writer_inv ?r0 ?w → writer_inv ?r0 _ =>
      let H := fresh "HJ" in intros H;
      apply (writer_inv_frame r0 w); [| | | |exact H]
  end.

Ltac other_reactor :=
  frame_inv; world_simpl;
  (rewrite ?lookup_delete_ne, ?lookup_insert_ne, ?phase_snoc, ?pending_snoc by done);
  (rewrite ?phase_step_other by (simpl; congruence));
  (rewrite ?decide_False by congruence);
  first [done | lia].

Lemma SendMessage_inv r0 r w w' :
  SendMessage' r w = Done w' →
  (r = r0 → phase r0 (trace w) = Fresh ∧
            ∀ x, heap w !! r0 = Some x → tokens r0 x (io_context_ w) = 0) →
  writer_inv r0 w → writer_inv r0 w'.
Proof.
  unfold SendMessage, with_reactor. intros Hs Hpre.
  destruct (heap w !! r) as [x|] eqn:Hr; [|done].
  destruct (SyncMessages _ _) as [drained s2].
  destruct (decide (r = r0)) as [->|Hne].
  - destruct (Hpre eq_refl) as [Hph Htok]. specialize (Htok _ Hr). clear Hpre.
    intros [_ HJ]. rewrite Hr in HJ. destruct HJ as (Hn & _).
    unfold tokens in Htok.
    destruct drained as [|m drained].
    + unfold OnWriteDone, with_reactor in Hs. cbn in Hs.
      rewrite lookup_insert_eq in Hs. simplify_eq.
      unfold writer_inv, tokens. world_simpl.
      rewrite phase_snoc, Hph, lookup_insert_eq. simpl.
      rewrite decide_True by done. world_simpl. simpl.
      repeat split; try done; lia.
    + simplify_eq. unfold writer_inv, tokens. world_simpl.
      rewrite phase_snoc, Hph, lookup_insert_eq. simpl.
      rewrite decide_True by done. world_simpl. simpl.
      destruct (timer x); simpl in *; repeat split; try done; lia.
  - clear Hpre. destruct drained as [|m drained].
    + unfold OnWriteDone, with_reactor in Hs. cbn in Hs.
      rewrite lookup_insert_eq in Hs. simplify_eq. other_reactor.
    + simplify_eq. other_reactor.
Qed.

(** A step that touches the reactor [r] without changing its flags. *)
Ltac same_flags r r0 Hr :=
  frame_inv; world_simpl;
  [ destruct (decide (r = r0)) as [->|?];
    (rewrite ?lookup_insert_eq, ?lookup_insert_ne, ?Hr by done); done
  | lia
  | rewrite ?pending_snoc; (rewrite ?decide_False by congruence); lia
  | rewrite ?phase_snoc; (rewrite ?phase_step_quiet by (intros; congruence)); done ].


Ltac own_reactor Hr :=
  lazymatch goal with
  | HJ : writer_inv _ _ |- _ =>
      let Hv := fresh "Hv" in let Hn := fresh "Hn" in let Ht := fresh "Ht" in
      let Hw := fresh "Hw" in let Ha := fresh "Ha" in
      destruct HJ as [Hv HJ]; rewrite Hr in HJ;
      destruct HJ as (Hn & Ht & Hw & Ha);
      unfold writer_inv, tokens in *
  end.

Ltac own_finish x :=
  destruct (write_in_flight x), (timer x), (metadata_in_flight x);
  simpl in *; repeat split; intros;
  repeat match goal with
  | H : ?p = ?p → _ |- _ => specialize (H eq_refl)
  | H : ?P → _, H' : ?P |- _ => specialize (H H')
  end;
  try done; try lia.

Lemma Accept_inv r0 n w : writer_inv r0 w → writer_inv r0 (Accept n w).2.
Proof.
  intros HJ. unfold Accept, construct_server_reactor. cbn.
  destruct (decide (next_reactor w = r0)) as [<-|Hne].
  - pose proof HJ as HJ0. destruct HJ as [Hv HJ].
    destruct (heap w !! next_reactor w) as [x|] eqn:E; [lia|].
    destruct HJ as [Hph Hp]; [done|].
    case_bool_decide; world_simpl.
    + unfold writer_inv, tokens. world_simpl.
      rewrite phase_snoc, Hph, lookup_insert_eq, Hp. simpl.
      repeat split; try done; lia.
    + apply (writer_inv_dead _ w); world_simpl.
      * apply lookup_delete_eq.
      * lia.
      * rewrite phase_snoc. by rewrite phase_step_quiet.
      * done.
  - case_bool_decide; other_reactor.
Qed.

Lemma step_inv r0 e w w' :
  enabled e w = true → handle' e w = Done w' →
  e ≠ RpcWriteDone r0 false →
  writer_inv r0 w → writer_inv r0 w'.
Proof.
  intros Hen Hs Hnf HJ.
  destruct e as [c rp rc|from m|md|r ok|r ok md|r ok batch|r ok|r|r err|];
    cbn [handle enabled] in *.
  - simplify_eq. by frame_inv.
  - simplify_eq. by frame_inv.
  - unfold StartSync in Hs. destruct (metadata_find _ _) as [n|]; [|done].
    destruct (Accept _ _) as [res w2] eqn:EA. simplify_eq.
    change w' with (res, w').2. rewrite <- EA. apply Accept_inv.
    frame_inv; world_simpl; try done.
    rewrite phase_snoc. by rewrite phase_step_quiet.
  - (* initial metadata sent *)
    unfold reactor_has, with_reactor, OnSendInitialMetadataDone in *.
    destruct (heap w !! r) as [x|] eqn:Hr; [|done].
    rewrite with_reactor_set in Hs.
    apply andb_prop in Hen as [_ Hmeta].
    destruct (decide (r = r0)) as [->|Hne];
      [|destruct ok; simplify_eq; other_reactor].
    own_reactor Hr. rewrite Hmeta in *.
    destruct ok; simplify_eq; world_simpl; rewrite lookup_insert_eq; world_simpl;
      rewrite ?phase_snoc, ?pending_snoc;
      (rewrite ?phase_step_quiet by (intros; congruence));
      rewrite ?decide_True by done; own_finish x.
  - (* initial metadata read *)
    unfold reactor_has, with_reactor, OnReadInitialMetadataDone in *.
    destruct (heap w !! r) as [x|] eqn:Hr; [|done].
    rewrite with_reactor_set in Hs.
    apply andb_prop in Hen as [_ Hmeta].
    destruct ok; [|done]. destruct (metadata_find _ _) as [n|]; [|done].
    simplify_eq.
    destruct (decide (r = r0)) as [->|Hne]; [|other_reactor].
    own_reactor Hr. rewrite Hmeta in *.
    world_simpl; rewrite lookup_insert_eq; world_simpl;
      rewrite ?phase_snoc, ?pending_snoc;
      (rewrite ?phase_step_quiet by (intros; congruence));
      rewrite ?decide_True by done; own_finish x.
  - (* read done *)
    unfold with_reactor, OnReadDone in *.
    destruct (heap w !! r) as [x|] eqn:Hr; [|done].
    destruct ok; rewrite ?with_reactor_set in Hs; unfold with_reactor in Hs; rewrite ?Hr in Hs; simplify_eq;
      same_flags r r0 Hr.
  - (* write done *)
    unfold reactor_has, with_reactor, OnWriteDone in *.
    destruct (heap w !! r) as [x|] eqn:Hr; [|done].
    rewrite with_reactor_set in Hs.
    destruct (decide (r = r0)) as [->|Hne];
      [|destruct ok; simplify_eq; other_reactor].
    destruct ok; [|done]. simplify_eq.
    own_reactor Hr. rewrite Hen in *.
    world_simpl; rewrite lookup_insert_eq; world_simpl.
    rewrite phase_snoc. simpl. rewrite decide_True by done.
    destruct (phase r0 (trace w)); own_finish x.
  - (* done *)
    unfold OnDone, with_reactor in *.
    destruct (heap w !! r) as [x|] eqn:Hr; [|done]. simplify_eq.
    same_flags r r0 Hr.
  - (* timer *)
    unfold reactor_has, with_reactor, timer_callback in *.
    destruct (heap w !! r) as [x|] eqn:Hr; [|done].
    apply bool_decide_eq_true in Hen as [d Hd].
    destruct err as [[]|]; [| done |].
    + simplify_eq. destruct (decide (r = r0)) as [->|Hne]; [|other_reactor].
      own_reactor Hr. rewrite Hd in *.
      world_simpl; rewrite lookup_insert_eq; world_simpl. own_finish x.
    + eapply SendMessage_inv; [exact Hs| |].
      * intros ->. own_reactor Hr. rewrite Hd in *.
        world_simpl; rewrite lookup_insert_eq; world_simpl.
        rewrite phase_snoc. simpl. rewrite decide_True by done.
        split.
        -- destruct (phase r0 (trace w)); own_finish x.
        -- intros ? [= <-]. world_simpl. own_finish x.
      * destruct (decide (r = r0)) as [->|Hne]; [|other_reactor].
        own_reactor Hr. rewrite Hd in *.
        world_simpl; rewrite lookup_insert_eq; world_simpl.
        rewrite phase_snoc. simpl. rewrite decide_True by done.
        destruct (phase r0 (trace w)); own_finish x.
  - (* the executor runs the next handler *)
    destruct (io_context_ w) as [|t rest] eqn:Hq; [done|].
    destruct t as [r|r|r]; cbn [run_task] in Hs.
    + unfold run_ReadDone, with_reactor in Hs. cbn in Hs.
      destruct (heap w !! r) as [x|] eqn:Hr; [|done]. simplify_eq.
      frame_inv; world_simpl.
      * destruct (decide (r = r0)) as [->|?];
          (rewrite ?lookup_insert_eq, ?lookup_insert_ne, ?Hr by done); done.
      * lia.
      * by rewrite Hq, pending_cons, decide_False.
      * rewrite phase_snoc. by rewrite phase_step_quiet.
    + destruct (heap w !! r) as [x|] eqn:Hr;
        [|unfold SendMessage, with_reactor in Hs; cbn in Hs; by rewrite Hr in Hs].
      eapply SendMessage_inv; [exact Hs| |].
      * intros ->. own_reactor Hr. world_simpl.
        rewrite Hq, pending_cons, decide_True in * by done.
        split; [|intros ? ?; simplify_eq; own_finish x].
        destruct (phase r0 (trace w)); own_finish x.
      * destruct (decide (r = r0)) as [->|Hne].
        -- own_reactor Hr. world_simpl. rewrite Hr.
           rewrite Hq, pending_cons, decide_True in * by done.
           destruct (phase r0 (trace w)); own_finish x.
        -- frame_inv; world_simpl; try done.
           rewrite Hq, pending_cons, decide_False by congruence. done.
    + unfold run_RaySyncDone, with_reactor in Hs. cbn in Hs.
      destruct (heap w !! r) as [x|] eqn:Hr; [|done]. simplify_eq.
      assert (pending r0 rest = pending r0 (io_context_ w)) as Hp.
      { by rewrite Hq, pending_cons, decide_False. }
      destruct (followers_ (syncer w) !! node_id x) as [owned|]; world_simpl.
      * destruct (decide (owned = r0)) as [->|Hne].
        -- destruct (heap w !! r0) as [x0|] eqn:Hr0.
           ++ apply (writer_inv_dead _ w); world_simpl; try done.
              ** apply lookup_delete_eq.
              ** destruct HJ as [_ HJ]. rewrite Hr0 in HJ. by destruct HJ.
           ++ frame_inv; world_simpl; try done.
              by rewrite lookup_delete_eq, Hr0.
        -- frame_inv; world_simpl; try done.
           by rewrite lookup_delete_ne.
      * frame_inv; world_simpl; done.
Qed.

Lemma quiescent_inv r0 w : quiescent w → writer_inv r0 w.
Proof.
  intros (Ht & Hq & Hh). unfold writer_inv, tokens. rewrite Ht, Hq.
  split; [done|]. destruct (heap w !! r0) as [x|] eqn:Hr; [|done].
  destruct (Hh _ _ Hr) as (? & -> & ->). cbn.
  destruct (metadata_in_flight x); repeat split; try done; simpl; lia.
Qed.

Lemma runs_inv r0 w es w' :
  runs kComponentArraySize Update UpdateBatch SyncMessages w es w' →
  RpcWriteDone r0 false ∉ es →
  writer_inv r0 w → writer_inv r0 w'.
Proof.
  induction 1 as [|w e w1 es w2 Hen Hs _ IH]; [done|].
  intros Hnf HJ. apply IH.
  - intros Hin. apply Hnf. by right.
  - eapply step_inv; [done..| |done]. intros ->. apply Hnf. left.
Qed.

Lemma run_runs es w w' :
  run kComponentArraySize Update UpdateBatch SyncMessages es w = Some w' →
  runs kComponentArraySize Update UpdateBatch SyncMessages w es w'.
Proof.
  revert w. induction es as [|e es IH]; intros w; cbn [run].
  - intros [= ->]. constructor.
  - destruct (enabled e w) eqn:Hen; [|done].
    destruct (handle' e w) as [w1| |] eqn:Hs; [|done..].
    intros Hr. econstructor; eauto.
Qed.

(** C9 (amended).  After a successful write the reactor arms the 100 ms
    timer and does nothing else; a collect-and-send tick whose drain is empty
    starts no write and arms the same timer; the timer, when it expires,
    runs the next tick.  So, in every run from a state where nothing has
    happened yet, any two writes on one link have the arming and the expiry
    of the cool-down timer between them, as long as no write on that link
    completes with failure. *)
Theorem cool_down_between_writes r w :
  (∀ x, heap w !! r = Some x →
     ∃ w1, OnWriteDone true r w = Done w1 ∧
           timer <$> heap w1 !! r = Some (Some 100%N) ∧
           trace w1 = trace w ++ [TimerArm r 100] ∧
           io_context_ w1 = io_context_ w ∧ syncer w1 = syncer w) ∧
  (∀ x, heap w !! r = Some x →
     (SyncMessages (node_id x)
        (collect_snapshots Update kComponentArraySize 0 (syncer w))).1 = [] →
     ∃ w1, SendMessage kComponentArraySize Update SyncMessages r w = Done w1 ∧
           timer <$> heap w1 !! r = Some (Some 100%N) ∧
           trace w1 = trace w ++ [TimerArm r 100] ∧
           io_context_ w1 = io_context_ w) ∧
  (∀ x, heap w !! r = Some x →
     handle kComponentArraySize Update UpdateBatch SyncMessages (TimerEvent r None) w =
       SendMessage kComponentArraySize Update SyncMessages r (emit (TimerExpired r) (set_reactor r (set_timer None x) w))) ∧
  (∀ es w',
     quiescent w →
     runs kComponentArraySize Update UpdateBatch SyncMessages w es w' →
     RpcWriteDone r false ∉ es →
     separated r (trace w')).
Proof.
  split; [|split; [|split]].
  - intros x Hr. unfold OnWriteDone, with_reactor. rewrite Hr.
    eexists. split; [reflexivity|]. cbn. by rewrite lookup_insert_eq.
  - intros x Hr Hempty. unfold SendMessage, with_reactor. rewrite Hr.
    destruct (SyncMessages _ _) as [drained s2]. simpl in Hempty. subst drained.
    unfold OnWriteDone. rewrite with_reactor_set.
    eexists. split; [reflexivity|]. cbn. by rewrite lookup_insert_eq.
  - intros x Hr. cbn [handle]. unfold with_reactor. by rewrite Hr.
  - intros es w' Hq Hruns Hnf.
    destruct (runs_inv r w es w' Hruns Hnf (quiescent_inv r w Hq)) as [Hv _].
    by apply phase_meaning.
Qed.

End WriterLoop.


(** ** The peer table *)

Lemma followers_ok_one w : followers_ok w → one_reactor_per_peer w.
Proof.
  intros [_ H] r1 r2 x1 x2 H1 H2 K1 K2 Hn.
  pose proof (H _ _ H1 K1) as E1. pose proof (H _ _ H2 K2) as E2.
  rewrite Hn in E1. congruence.
Qed.

Lemma followers_ok_frame w w' :
  followers_ (syncer w') = followers_ (syncer w) →
  next_reactor w ≤ next_reactor w' →
  (∀ r x', heap w' !! r = Some x' →
     ∃ x, heap w !! r = Some x ∧
          (kind x' = ServerSide → kind x = ServerSide ∧ node_id x = node_id x')) →
  followers_ok w → followers_ok w'.
Proof.
  intros Hf Hn Hh [H1 H2]. split.
  - intros r x' Hr. destruct (Hh _ _ Hr) as (x & Hx & _).
    specialize (H1 _ _ Hx). lia.
  - intros r x' Hr Hk. destruct (Hh _ _ Hr) as (x & Hx & Hkn).
    destruct (Hkn Hk) as [Hk' <-]. rewrite Hf. by apply H2.
Qed.

Section PeerTable.
Variable kComponentArraySize : nat.
Variable Update : NodeId → RaySyncMessage → RaySyncer → RaySyncer.
Variable UpdateBatch : NodeId → RaySyncMessages → RaySyncer → RaySyncer.
Variable SyncMessages : NodeId → RaySyncer → RaySyncMessages * RaySyncer.
Local Abbreviation SendMessage' := (SendMessage kComponentArraySize Update SyncMessages).
Local Abbreviation handle' := (handle kComponentArraySize Update UpdateBatch SyncMessages).

Hypothesis Update_followers :
  ∀ from m s, followers_ (Update from m s) = followers_ s.
Hypothesis UpdateBatch_followers :
  ∀ from batch s, followers_ (UpdateBatch from batch s) = followers_ s.
Hypothesis SyncMessages_followers :
  ∀ peer s, followers_ (SyncMessages peer s).2 = followers_ s.

Ltac world_simpl :=
  cbn [heap trace io_context_ next_reactor syncer
       set_reactor set_syncer emit dispatch destroy
       write_in_flight timer metadata_in_flight kind node_id
       set_write_in_flight set_timer set_metadata_in_flight set_in_message
       set_out_message set_buffer set_node_id ResetOutMessage
       followers_ set_followers set_cluster_messages AddNode Register] in *.


Lemma collect_snapshots_followers n i s :
  followers_ (collect_snapshots Update n i s) = followers_ s.
Proof.
  revert i s. induction n as [|n IH]; intros i s; [done|].
  cbn [collect_snapshots]. rewrite IH.
  by destruct (reporters_ s !! i) as [[reporter|]|].
Qed.

(** The reactor [r], live as [x], is replaced by one of the same kind and
    node id (or stays a client). *)
Ltac updated r Hr :=
  apply followers_ok_frame; world_simpl;
  [ rewrite ?collect_snapshots_followers,
            ?Update_followers, ?UpdateBatch_followers; done
  | lia
  | let r1 := fresh "r1" in let x1 := fresh "x1" in let H := fresh "H" in
    intros r1 x1 H; destruct (decide (r1 = r)) as [->|?];
    [ rewrite ?lookup_insert_eq in H; simplify_eq; eexists; split; [exact Hr|];
      world_simpl; try done
    | rewrite ?lookup_insert_ne in H by done; eauto ] ].

Lemma SendMessage_followers_ok r w w' :
  SendMessage' r w = Done w' → followers_ok w → followers_ok w'.
Proof.
  unfold SendMessage, with_reactor. intros Hs.
  destruct (heap w !! r) as [x|] eqn:Hr; [|done].
  destruct (SyncMessages _ _) as [drained s2] eqn:ES.
  assert (followers_ s2 = followers_ (syncer w)) as Hf.
  { change s2 with (drained, s2).2. rewrite <- ES.
    by rewrite SyncMessages_followers, collect_snapshots_followers. }
  destruct drained as [|m drained].
  - unfold OnWriteDone in Hs. rewrite with_reactor_set in Hs. simplify_eq.
    updated r Hr.
  - simplify_eq. updated r Hr.
Qed.

Lemma Accept_followers_ok n w : followers_ok w → followers_ok (Accept n w).2.
Proof.
  intros [H1 H2]. unfold Accept, construct_server_reactor. cbn.
  case_bool_decide as Hfree; world_simpl.
  - split; world_simpl.
    + intros r x Hr. destruct (decide (r = next_reactor w)) as [->|Hne]; [lia|].
      rewrite lookup_insert_ne in Hr by done. specialize (H1 _ _ Hr). lia.
    + intros r x Hr Hk. destruct (decide (r = next_reactor w)) as [->|Hne].
      * rewrite lookup_insert_eq in Hr. simplify_eq. cbn. apply lookup_insert_eq.
      * rewrite lookup_insert_ne in Hr by done.
        specialize (H2 _ _ Hr Hk).
        rewrite lookup_insert_ne; [done|]. intros E. subst n. congruence.
  - split; world_simpl.
    + intros r x [_ Hr]%lookup_delete_Some.
      destruct (decide (r = next_reactor w)) as [->|Hne]; [lia|].
      rewrite lookup_insert_ne in Hr by done. specialize (H1 _ _ Hr). lia.
    + intros r x [Hne Hr]%lookup_delete_Some Hk.
      rewrite lookup_insert_ne in Hr by done. by apply H2.
Qed.

Lemma run_RaySyncDone_followers_ok r w w' :
  run_RaySyncDone r w = Done w' → followers_ok w → followers_ok w'.
Proof.
  unfold run_RaySyncDone, with_reactor. intros Hs [H1 H2].
  destruct (heap w !! r) as [x|] eqn:Hr; [|done]. simplify_eq.
  destruct (followers_ (syncer w) !! node_id x) as [owned|] eqn:Ho; world_simpl.
  - split; world_simpl.
    + intros r1 x1 [_ Hr1]%lookup_delete_Some. by eapply H1.
    + intros r1 x1 [Hne Hr1]%lookup_delete_Some Hk.
      specialize (H2 _ _ Hr1 Hk).
      rewrite lookup_delete_ne; [done|]. intros E. rewrite E in Ho. congruence.
  - split; world_simpl; [done|].
    intros r1 x1 Hr1 Hk. specialize (H2 _ _ Hr1 Hk).
    rewrite lookup_delete_ne; [done|]. intros E. rewrite E in Ho. congruence.
Qed.

Lemma step_followers_ok e w w' :
  enabled e w = true → handle' e w = Done w' →
  followers_ok w → followers_ok w'.
Proof.
  intros Hen Hs.
  destruct e as [c rp rc|from m|md|r ok|r ok md|r ok batch|r ok|r|r err|];
    cbn [handle enabled] in *.
  - simplify_eq. apply followers_ok_frame; world_simpl; eauto.
  - simplify_eq. apply followers_ok_frame; world_simpl; eauto.
  - unfold StartSync in Hs. destruct (metadata_find _ _) as [n|]; [|done].
    destruct (Accept _ _) as [res w2] eqn:EA. simplify_eq.
    change w' with (res, w').2. rewrite <- EA. intros HJ.
    apply Accept_followers_ok. revert HJ.
    apply followers_ok_frame; world_simpl; eauto.
  - unfold reactor_has, with_reactor, OnSendInitialMetadataDone in *.
    destruct (heap w !! r) as [x|] eqn:Hr; [|done].
    rewrite with_reactor_set in Hs. destruct ok; simplify_eq; updated r Hr.
  - unfold reactor_has, with_reactor, OnReadInitialMetadataDone in *.
    destruct (heap w !! r) as [x|] eqn:Hr; [|done].
    rewrite with_reactor_set in Hs.
    apply andb_prop in Hen as [Hc _]. unfold is_client, is_server in Hc.
    destruct ok; [|done]. destruct (metadata_find _ _) as [n|]; [|done].
    simplify_eq. updated r Hr. intros Hk. rewrite Hk in Hc. done.
  - unfold with_reactor, OnReadDone in *.
    destruct (heap w !! r) as [x|] eqn:Hr; [|done].
    destruct ok; rewrite ?with_reactor_set in Hs; unfold with_reactor in Hs;
      rewrite ?Hr in Hs; simplify_eq.
    + updated r Hr.
    + apply followers_ok_frame; world_simpl; eauto.
  - unfold reactor_has, with_reactor, OnWriteDone in *.
    destruct (heap w !! r) as [x|] eqn:Hr; [|done].
    rewrite with_reactor_set in Hs. destruct ok; simplify_eq; updated r Hr.
  - unfold OnDone, with_reactor in *.
    destruct (heap w !! r) as [x|] eqn:Hr; [|done]. simplify_eq.
    apply followers_ok_frame; world_simpl; eauto.
  - unfold reactor_has, with_reactor, timer_callback in *.
    destruct (heap w !! r) as [x|] eqn:Hr; [|done].
    destruct err as [[]|]; [| done |].
    + simplify_eq. updated r Hr.
    + intros HJ. eapply SendMessage_followers_ok; [exact Hs|]. revert HJ.
      updated r Hr.
  - destruct (io_context_ w) as [|t rest] eqn:Hq; [done|].
    destruct t as [r|r|r]; cbn [run_task] in Hs.
    + unfold run_ReadDone, with_reactor in Hs. world_simpl.
      destruct (heap w !! r) as [x|] eqn:Hr; [|done]. simplify_eq.
      updated r Hr.
    + intros HJ. eapply SendMessage_followers_ok; [exact Hs|]. revert HJ.
      apply followers_ok_frame; world_simpl; eauto.
    + intros HJ. eapply run_RaySyncDone_followers_ok; [exact Hs|]. revert HJ.
      apply followers_ok_frame; world_simpl; eauto.
Qed.

Lemma runs_followers_ok w es w' :
  runs kComponentArraySize Update UpdateBatch SyncMessages w es w' →
  followers_ok w → followers_ok w'.
Proof.
  induction 1 as [|w e w1 es w2 Hen Hs _ IH]; [done|].
  intros HJ. apply IH. by eapply step_followers_ok.
Qed.

(** C3 (amended).  When the hub accepts a stream for a peer id under which
    no reactor is registered, the new reactor is registered in the peer
    table under that id and handed back, and the peer's sub-map is created
    empty.  [Accept] asks no reactor to finish: all it leaves in the trace is
    the new reactor's initial metadata.  In every run, each live hub-side
    reactor is the one registered under its peer id, so at most one live
    hub-side reactor per peer id exists at any time. *)
Theorem accept_keeps_one_reactor_per_peer (n : NodeId) w :
  (followers_ (syncer w) !! n = None →
     (Accept n w).1 = Some (next_reactor w) ∧
     followers_ (syncer (Accept n w).2)
       = <[n := next_reactor w]> (followers_ (syncer w)) ∧
     heap (Accept n w).2 = <[next_reactor w := new_server_reactor n]> (heap w) ∧
     cluster_messages_ (syncer (Accept n w).2)
       = <[n := ∅]> (cluster_messages_ (syncer w))) ∧
  trace (Accept n w).2 = trace w ++ [StartSendInitialMetadata (next_reactor w)] ∧
  (followers_ok w → followers_ok (Accept n w).2) ∧
  (∀ es w',
     followers_ok w →
     runs kComponentArraySize Update UpdateBatch SyncMessages w es w' →
     followers_ok w' ∧ one_reactor_per_peer w').
Proof.
  split; [|split; [|split]].
  - intros Hfree. unfold Accept. cbn. rewrite bool_decide_true by done. cbn.
    split; [apply lookup_insert_eq|done].
  - unfold Accept. cbn. by case_bool_decide.
  - apply Accept_followers_ok.
  - intros es w' Hok Hruns.
    assert (followers_ok w') by by eapply runs_followers_ok.
    split; [done|]. by apply followers_ok_one.
Qed.

End PeerTable.

(** ** The member functions modelled after the design document *)

Lemma Deliver_wiring m s :
  followers_ (Deliver m s) = followers_ s ∧
  reporters_ (Deliver m s) = reporters_ s ∧
  node_id_ (Deliver m s) = node_id_ s.
Proof.
  unfold Deliver. by destruct (receivers_ s !! component m) as [[receiver|]|].
Qed.

Lemma Update_spec_wiring from m s :
  followers_ (Update_spec from m s) = followers_ s ∧
  reporters_ (Update_spec from m s) = reporters_ s ∧
  node_id_ (Update_spec from m s) = node_id_ s.
Proof.
  unfold Update_spec. destruct (Store.Ingest _ _ _ _) as [st out].
  change (followers_ s) with (followers_ (set_cluster_messages st s)).
  change (reporters_ s) with (reporters_ (set_cluster_messages st s)).
  change (node_id_ s) with (node_id_ (set_cluster_messages st s)).
  generalize (set_cluster_messages st s). clear s.
  induction out as [|m' out IH]; intros s; [done|]. simpl.
  destruct (IH (Deliver m' s)) as (-> & -> & ->). apply Deliver_wiring.
Qed.

Lemma UpdateBatch_spec_followers from batch s :
  followers_ (UpdateBatch_spec from batch s) = followers_ s.
Proof.
  unfold UpdateBatch_spec. revert s.
  induction batch as [|m batch IH]; intros s; [done|]. simpl.
  rewrite IH. apply Update_spec_wiring.
Qed.

Lemma SyncMessages_spec_followers peer s :
  followers_ (SyncMessages_spec peer s).2 = followers_ s.
Proof.
  unfold SyncMessages_spec. by destruct (Store.DrainFor _ _) as [drained st].
Qed.

(** ** Further properties of the handlers *)

Section MoreReactorFacts.

Variable kComponentArraySize : nat.
Variable Update : NodeId → RaySyncMessage → RaySyncer → RaySyncer.
Variable UpdateBatch : NodeId → RaySyncMessages → RaySyncer → RaySyncer.
Variable SyncMessages : NodeId → RaySyncer → RaySyncMessages * RaySyncer.

Implicit Types (r : rid) (w : World) (x : Reactor) (s : RaySyncer) (e : Event).

Lemma SendMessage_not_abort r w :
  SendMessage kComponentArraySize Update SyncMessages r w ≠ Abort.
Proof.
  unfold SendMessage, with_reactor. destruct (heap w !! r) as [x|]; [|done].
  destruct (SyncMessages _ _) as [drained s2]. destruct drained; [|done].
  unfold OnWriteDone. by rewrite with_reactor_set.
Qed.

(** X1.  The handlers of this header abort in three places only, its three
    [RAY_CHECK]s: [StartSync] when the client metadata have no ["node_id"],
    [OnReadInitialMetadataDone] of a live reactor when the read failed or the
    metadata of the hub have no ["node_id"], and the timer callback of a live
    reactor when the wait ended with an error that is not a cancellation. *)
Theorem handle_abort_iff e w :
  handle kComponentArraySize Update UpdateBatch SyncMessages e w = Abort ↔
  (∃ md, e = RpcStartSync md ∧ ∀ value, ("node_id", value) ∉ md) ∨
  (∃ r ok md, e = RpcReadInitialMetadataDone r ok md ∧ is_Some (heap w !! r) ∧
              (ok = false ∨ ∀ value, ("node_id", value) ∉ md)) ∨
  (∃ r, e = TimerEvent r (Some other_error) ∧ is_Some (heap w !! r)).
Proof.
  split.
  - destruct e as [c rp rc|from m|md|r ok|r ok md|r ok batch|r ok|r|r err|];
      cbn [handle]; try done.
    + unfold StartSync. destruct (metadata_find _ _) as [n|] eqn:E.
      * by destruct (Accept _ _).
      * intros _. left. exists md. split; [done|]. by apply metadata_find_None.
    + unfold with_reactor. destruct (heap w !! r) as [x|]; [|done].
      unfold OnSendInitialMetadataDone. rewrite with_reactor_set. by destruct ok.
    + unfold with_reactor. destruct (heap w !! r) as [x|] eqn:Hr; [|done].
      unfold OnReadInitialMetadataDone. rewrite with_reactor_set.
      intros H. right. left. exists r, ok, md. split; [done|]. split; [done|].
      destruct ok; [|by left]. right.
      destruct (metadata_find _ _) eqn:E; [done|]. by apply metadata_find_None.
    + unfold with_reactor. destruct (heap w !! r) as [x|] eqn:Hr; [|done].
      unfold OnReadDone.
      destruct ok; rewrite ?with_reactor_set; unfold with_reactor;
        rewrite ?Hr; done.
    + unfold with_reactor. destruct (heap w !! r) as [x|]; [|done].
      unfold OnWriteDone. rewrite with_reactor_set. by destruct ok.
    + unfold OnDone, with_reactor. by destruct (heap w !! r).
    + unfold with_reactor. destruct (heap w !! r) as [x|] eqn:Hr; [|done].
      destruct err as [[]|]; cbn [timer_callback]; try done.
      * intros _. right. right. exists r. by rewrite Hr.
      * intros H. by apply SendMessage_not_abort in H.
    + destruct (io_context_ w) as [|[r|r|r] rest]; cbn [run_task]; try done.
      * unfold run_ReadDone, with_reactor. cbn. by destruct (heap w !! r).
      * intros H. by apply SendMessage_not_abort in H.
      * unfold run_RaySyncDone, with_reactor. cbn. by destruct (heap w !! r).
  - intros [(md & -> & Hno)|[(r & ok & md & -> & [x Hr] & Hbad)|(r & -> & [x Hr])]];
      cbn [handle].
    + unfold StartSync. apply metadata_find_None in Hno. by rewrite Hno.
    + unfold with_reactor. rewrite Hr.
      unfold OnReadInitialMetadataDone. rewrite with_reactor_set.
      destruct Hbad as [->|Hno]; [done|].
      apply metadata_find_None in Hno. rewrite Hno. by destruct ok.
    + unfold with_reactor. by rewrite Hr.
Qed.

(** X2.  [Accept] for a peer id that is registered already: [emplace]
    inserts nothing, so the reactor just built is destroyed when [Accept]
    returns, after its constructor has started to send the initial metadata.
    The reactor registered before is handed back, the peer table and the live
    reactors are as before, and [AddNode] resets the sub-map of the peer to
    the empty map. *)
Theorem Accept_registered_peer (n : NodeId) w (registered : rid) :
  followers_ (syncer w) !! n = Some registered →
  heap w !! next_reactor w = None →
  (Accept n w).1 = Some registered ∧
  followers_ (syncer (Accept n w).2) = followers_ (syncer w) ∧
  heap (Accept n w).2 = heap w ∧
  cluster_messages_ (syncer (Accept n w).2)
    = <[n := ∅]> (cluster_messages_ (syncer w)) ∧
  trace (Accept n w).2 = trace w ++ [StartSendInitialMetadata (next_reactor w)].
Proof.
  intros Hreg Hfresh. unfold Accept, construct_server_reactor. cbn.
  rewrite bool_decide_false by (rewrite Hreg; done). cbn.
  repeat split; [done|]. by rewrite delete_insert_id.
Qed.

(** X3.  [Accept] for one peer leaves the other peers alone: their entries
    of the peer table and of the message store, the reporter and receiver
    slots, the node id of the syncer, the posted handlers and every reactor
    that was live are as before; the sub-map of the accepted peer is empty. *)
Theorem Accept_other_peers (n other : NodeId) w :
  other ≠ n →
  followers_ (syncer (Accept n w).2) !! other = followers_ (syncer w) !! other ∧
  cluster_messages_ (syncer (Accept n w).2) !! other
    = cluster_messages_ (syncer w) !! other ∧
  cluster_messages_ (syncer (Accept n w).2) !! n = Some ∅ ∧
  reporters_ (syncer (Accept n w).2) = reporters_ (syncer w) ∧
  receivers_ (syncer (Accept n w).2) = receivers_ (syncer w) ∧
  node_id_ (syncer (Accept n w).2) = node_id_ (syncer w) ∧
  io_context_ (Accept n w).2 = io_context_ w ∧
  (∀ r, r ≠ next_reactor w → heap (Accept n w).2 !! r = heap w !! r).
Proof.
  intros Hne. unfold Accept, construct_server_reactor. cbn.
  case_bool_decide; cbn; rewrite ?lookup_insert_eq;
    rewrite ?lookup_insert_ne by done; repeat split; try done.
  - intros r Hr. by rewrite !lookup_insert_ne.
  - intros r Hr. by rewrite lookup_delete_ne, lookup_insert_ne.
Qed.

Ltac world_simpl :=
  cbn [heap trace io_context_ next_reactor syncer
       set_reactor set_syncer emit dispatch destroy
       write_in_flight timer metadata_in_flight kind node_id
       set_write_in_flight set_timer set_metadata_in_flight set_in_message
       set_out_message set_buffer set_node_id ResetOutMessage] in *.

Lemma token_bound_frame k r0 w w' :
  flags <$> heap w' !! r0 = flags <$> heap w !! r0 →
  next_reactor w ≤ next_reactor w' →
  pending r0 (io_context_ w') = pending r0 (io_context_ w) →
  token_bound k r0 w → token_bound k r0 w'.
Proof.
  unfold token_bound, tokens. intros Hf Hn ->.
  destruct (heap w !! r0) as [x|], (heap w' !! r0) as [x'|]; simplify_eq/=.
  - rewrite Hf, H, H0. intros [? ?]. split; [lia|done].
  - intros HJ ?. apply HJ. lia.
Qed.

Lemma token_bound_dead k r0 w :
  heap w !! r0 = None → r0 < next_reactor w → token_bound k r0 w.
Proof. unfold token_bound. intros -> ?. lia. Qed.

Ltac frame_tok :=
  lazymatch goal with
  | H : token_bound ?k ?r0 ?w |- token_bound ?k ?r0 _ =>
      apply (token_bound_frame k r0 w); [| | |exact H]
  | |- token_bound ?k ?r0 ?w → token_bound ?k ?r0 _ =>
      let H := fresh "HJ" in intros H;
      apply (token_bound_frame k r0 w); [| | |exact H]
  end.

Ltac other_tok :=
  frame_tok; world_simpl;
  (rewrite ?lookup_delete_ne, ?lookup_insert_ne, ?pending_snoc by done);
  (rewrite ?decide_False by congruence);
  first [done | lia].

Ltac same_tok r r0 Hr :=
  frame_tok; world_simpl;
  [ destruct (decide (r = r0)) as [->|?];
    (rewrite ?lookup_insert_eq, ?lookup_insert_ne, ?Hr by done); done
  | lia
  | rewrite ?pending_snoc; (rewrite ?decide_False by congruence); lia ].

Ltac own_tok Hr :=
  lazymatch goal with
  | HJ : token_bound _ _ _ |- _ =>
      let Hn := fresh "Hn" in let Ht := fresh "Ht" in
      unfold token_bound in HJ; rewrite Hr in HJ; destruct HJ as (Hn & Ht);
      unfold token_bound, tokens in *
  end.

Ltac tok_finish x :=
  destruct (write_in_flight x), (timer x), (metadata_in_flight x);
  simpl in *; repeat split; intros; try done; try lia.

Lemma SendMessage_token_bound k r0 r w w' :
  SendMessage kComponentArraySize Update SyncMessages r w = Done w' →
  (r = r0 → ∀ x, heap w !! r0 = Some x → tokens r0 x (io_context_ w) + 1 ≤ k) →
  token_bound k r0 w → token_bound k r0 w'.
Proof.
  unfold SendMessage, with_reactor. intros Hs Hpre.
  destruct (heap w !! r) as [x|] eqn:Hr; [|done].
  destruct (SyncMessages _ _) as [drained s2].
  destruct (decide (r = r0)) as [->|Hne].
  - specialize (Hpre eq_refl _ Hr). intros HJ. own_tok Hr.
    destruct drained as [|m drained].
    + unfold OnWriteDone in Hs. rewrite with_reactor_set in Hs. simplify_eq.
      world_simpl. rewrite lookup_insert_eq. world_simpl. tok_finish x.
    + simplify_eq. world_simpl. rewrite lookup_insert_eq. world_simpl.
      tok_finish x.
  - clear Hpre. destruct drained as [|m drained].
    + unfold OnWriteDone in Hs. rewrite with_reactor_set in Hs. simplify_eq.
      other_tok.
    + simplify_eq. other_tok.
Qed.

Lemma Accept_token_bound k r0 n w : token_bound k r0 w → token_bound k r0 (Accept n w).2.
Proof.
  intros HJ. unfold Accept, construct_server_reactor. cbn.
  destruct (decide (next_reactor w = r0)) as [<-|Hne].
  - unfold token_bound in HJ.
    destruct (heap w !! next_reactor w) as [x|] eqn:E; [lia|].
    destruct (HJ (le_n _)) as [-> Hp].
    case_bool_decide; world_simpl.
    + unfold token_bound, tokens. world_simpl.
      rewrite lookup_insert_eq, Hp. simpl. lia.
    + apply token_bound_dead; world_simpl; [apply lookup_delete_eq|lia].
  - case_bool_decide; other_tok.
Qed.

Lemma step_token_bound k r0 e w w' :
  enabled e w = true →
  handle kComponentArraySize Update UpdateBatch SyncMessages e w = Done w' →
  token_bound k r0 w → token_bound k r0 w'.
Proof.
  intros Hen Hs HJ.
  destruct e as [c rp rc|from m|md|r ok|r ok md|r ok batch|r ok|r|r err|];
    cbn [handle enabled] in *.
  - simplify_eq. by frame_tok.
  - simplify_eq. by frame_tok.
  - unfold StartSync in Hs. destruct (metadata_find _ _) as [n|]; [|done].
    destruct (Accept _ _) as [res w2] eqn:EA. simplify_eq.
    change w' with (res, w').2. rewrite <- EA. apply Accept_token_bound.
    by frame_tok.
  - unfold reactor_has, with_reactor, OnSendInitialMetadataDone in *.
    destruct (heap w !! r) as [x|] eqn:Hr; [|done].
    rewrite with_reactor_set in Hs.
    apply andb_prop in Hen as [_ Hmeta].
    destruct (decide (r = r0)) as [->|Hne];
      [|destruct ok; simplify_eq; other_tok].
    own_tok Hr. rewrite Hmeta in *.
    destruct ok; simplify_eq; world_simpl; rewrite lookup_insert_eq; world_simpl;
      rewrite ?pending_snoc; rewrite ?decide_True by done; tok_finish x.
  - unfold reactor_has, with_reactor, OnReadInitialMetadataDone in *.
    destruct (heap w !! r) as [x|] eqn:Hr; [|done].
    rewrite with_reactor_set in Hs.
    apply andb_prop in Hen as [_ Hmeta].
    destruct ok; [|done]. destruct (metadata_find _ _) as [n|]; [|done].
    simplify_eq.
    destruct (decide (r = r0)) as [->|Hne]; [|other_tok].
    own_tok Hr. rewrite Hmeta in *.
    world_simpl; rewrite lookup_insert_eq; world_simpl;
      rewrite ?pending_snoc; rewrite ?decide_True by done; tok_finish x.
  - unfold with_reactor, OnReadDone in *.
    destruct (heap w !! r) as [x|] eqn:Hr; [|done].
    destruct ok; rewrite ?with_reactor_set in Hs; unfold with_reactor in Hs;
      rewrite ?Hr in Hs; simplify_eq; same_tok r r0 Hr.
  - unfold reactor_has, with_reactor, OnWriteDone in *.
    destruct (heap w !! r) as [x|] eqn:Hr; [|done].
    rewrite with_reactor_set in Hs.
    destruct (decide (r = r0)) as [->|Hne];
      [|destruct ok; simplify_eq; other_tok].
    own_tok Hr. rewrite Hen in *.
    destruct ok; simplify_eq; world_simpl; rewrite lookup_insert_eq; world_simpl;
      rewrite ?pending_snoc; rewrite ?decide_True by done; tok_finish x.
  - unfold OnDone, with_reactor in *.
    destruct (heap w !! r) as [x|] eqn:Hr; [|done]. simplify_eq.
    same_tok r r0 Hr.
  - unfold reactor_has, with_reactor, timer_callback in *.
    destruct (heap w !! r) as [x|] eqn:Hr; [|done].
    apply bool_decide_eq_true in Hen as [d Hd].
    destruct err as [[]|]; [| done |].
    + simplify_eq. destruct (decide (r = r0)) as [->|Hne]; [|other_tok].
      own_tok Hr. rewrite Hd in *.
      world_simpl; rewrite lookup_insert_eq; world_simpl. tok_finish x.
    + eapply SendMessage_token_bound; [exact Hs| |].
      * intros -> x0 Hx0. own_tok Hr. rewrite Hd in *. world_simpl.
        rewrite lookup_insert_eq in Hx0. simplify_eq. world_simpl. tok_finish x.
      * destruct (decide (r = r0)) as [->|Hne]; [|other_tok].
        own_tok Hr. rewrite Hd in *.
        world_simpl; rewrite lookup_insert_eq; world_simpl. tok_finish x.
  - destruct (io_context_ w) as [|t rest] eqn:Hq; [done|].
    destruct t as [r|r|r]; cbn [run_task] in Hs.
    + unfold run_ReadDone, with_reactor in Hs. cbn in Hs.
      destruct (heap w !! r) as [x|] eqn:Hr; [|done]. simplify_eq.
      frame_tok; world_simpl.
      * destruct (decide (r = r0)) as [->|?];
          (rewrite ?lookup_insert_eq, ?lookup_insert_ne, ?Hr by done); done.
      * lia.
      * by rewrite Hq, pending_cons, decide_False.
    + destruct (heap w !! r) as [x|] eqn:Hr;
        [|unfold SendMessage, with_reactor in Hs; cbn in Hs; by rewrite Hr in Hs].
      eapply SendMessage_token_bound; [exact Hs| |].
      * intros -> x0 Hx0. own_tok Hr. world_simpl. simplify_eq.
        rewrite Hq, pending_cons, decide_True in * by done. tok_finish x.
      * destruct (decide (r = r0)) as [->|Hne].
        -- own_tok Hr. world_simpl. rewrite Hr.
           rewrite Hq, pending_cons, decide_True in * by done. tok_finish x.
        -- frame_tok; world_simpl; try done.
           rewrite Hq, pending_cons, decide_False by congruence. done.
    + unfold run_RaySyncDone, with_reactor in Hs. cbn in Hs.
      destruct (heap w !! r) as [x|] eqn:Hr; [|done]. simplify_eq.
      assert (pending r0 rest = pending r0 (io_context_ w)) as Hp.
      { by rewrite Hq, pending_cons, decide_False. }
      destruct (followers_ (syncer w) !! node_id x) as [owned|]; world_simpl.
      * destruct (decide (owned = r0)) as [->|Hne].
        -- destruct (heap w !! r0) as [x0|] eqn:Hr0.
           ++ apply token_bound_dead; world_simpl; [apply lookup_delete_eq|].
              unfold token_bound in HJ. rewrite Hr0 in HJ. by destruct HJ.
           ++ frame_tok; world_simpl; try done.
              by rewrite lookup_delete_eq, Hr0.
        -- frame_tok; world_simpl; try done.
           by rewrite lookup_delete_ne.
      * frame_tok; world_simpl; done.
Qed.

Lemma runs_token_bound k r0 w es w' :
  runs kComponentArraySize Update UpdateBatch SyncMessages w es w' →
  token_bound k r0 w → token_bound k r0 w'.
Proof.
  induction 1 as [|w e w1 es w2 Hen Hs _ IH]; [done|].
  intros HJ. apply IH. by eapply step_token_bound.
Qed.

Lemma quiescent_token_bound r0 w : quiescent w → token_bound 1 r0 w.
Proof.
  intros (Ht & Hq & Hh). unfold token_bound, tokens. rewrite Hq.
  destruct (heap w !! r0) as [x|] eqn:Hr; [|done].
  destruct (Hh _ _ Hr) as (? & -> & ->). cbn.
  destruct (metadata_in_flight x); simpl; lia.
Qed.

Lemma pending_zero r q : pending r q = 0 ↔ RaySyncWrite r ∉ q.
Proof.
  induction q as [|t q IH]; [by split; [intros _ ?%elem_of_nil|]|].
  rewrite pending_cons, not_elem_of_cons. case_decide as E.
  - split; [lia|]. by intros [? _].
  - rewrite <- IH. split; [by intros ?; split; [congruence|lia]|]. intros [_ ?]. lia.
Qed.

Lemma writes_snoc r tr a :
  writes r (tr ++ [a]) = writes r tr + (if is_write r a then 1 else 0).
Proof.
  unfold writes. rewrite list.filter_app, length_app. f_equal.
  rewrite list.filter_cons, list.filter_nil. by destruct (is_write r a).
Qed.

Lemma SendMessage_other_writes r r' w w' :
  SendMessage kComponentArraySize Update SyncMessages r' w = Done w' →
  r' ≠ r → writes r (trace w') = writes r (trace w).
Proof.
  unfold SendMessage, with_reactor. intros Hs Hne.
  destruct (heap w !! r') as [x|]; [|done].
  destruct (SyncMessages _ _) as [drained s2]. destruct drained as [|m drained].
  - unfold OnWriteDone in Hs. rewrite with_reactor_set in Hs. simplify_eq.
    world_simpl. by rewrite writes_snoc, Nat.add_0_r.
  - simplify_eq. world_simpl. rewrite writes_snoc. cbn [is_write].
    rewrite bool_decide_false by done. lia.
Qed.

(** A step starts a write of [r] only when the timer of [r] expires or the
    executor runs a handler posted for [r]. *)
Lemma step_writes r e w w' :
  handle kComponentArraySize Update UpdateBatch SyncMessages e w = Done w' →
  e ≠ TimerEvent r None →
  (∀ rest, io_context_ w = RaySyncWrite r :: rest → e ≠ RunNext) →
  writes r (trace w') = writes r (trace w).
Proof.
  intros Hs Ht Hq.
  destruct e as [c rp rc|from m|md|r1 ok|r1 ok md|r1 ok batch|r1 ok|r1|r1 err|];
    cbn [handle] in Hs.
  - by simplify_eq.
  - by simplify_eq.
  - unfold StartSync in Hs. destruct (metadata_find _ _) as [n|]; [|done].
    unfold Accept, construct_server_reactor in Hs. cbn in Hs. simplify_eq.
    case_bool_decide; world_simpl; by rewrite !writes_snoc, !Nat.add_0_r.
  - unfold with_reactor, OnSendInitialMetadataDone in Hs.
    destruct (heap w !! r1) as [x|]; [|done]. rewrite with_reactor_set in Hs.
    destruct ok; simplify_eq; world_simpl; by rewrite writes_snoc, Nat.add_0_r.
  - unfold with_reactor, OnReadInitialMetadataDone in Hs.
    destruct (heap w !! r1) as [x|]; [|done]. rewrite with_reactor_set in Hs.
    destruct ok; [|done]. destruct (metadata_find _ _) as [n|]; [|done].
    simplify_eq. world_simpl. by rewrite writes_snoc, Nat.add_0_r.
  - unfold with_reactor, OnReadDone in Hs.
    destruct (heap w !! r1) as [x|] eqn:Hr; [|done].
    destruct ok; rewrite ?with_reactor_set in Hs; unfold with_reactor in Hs;
      rewrite ?Hr in Hs; simplify_eq; world_simpl; [done|].
    by rewrite writes_snoc, Nat.add_0_r.
  - unfold with_reactor, OnWriteDone in Hs.
    destruct (heap w !! r1) as [x|]; [|done]. rewrite with_reactor_set in Hs.
    destruct ok; simplify_eq; world_simpl; [|done].
    by rewrite writes_snoc, Nat.add_0_r.
  - unfold OnDone, with_reactor in Hs.
    destruct (heap w !! r1) as [x|]; [|done]. by simplify_eq.
  - unfold with_reactor, timer_callback in Hs.
    destruct (heap w !! r1) as [x|]; [|done].
    destruct err as [[]|]; [by simplify_eq|done|].
    destruct (decide (r1 = r)) as [->|Hne]; [done|].
    apply (SendMessage_other_writes r) in Hs; [|done].
    rewrite Hs. world_simpl. by rewrite writes_snoc, Nat.add_0_r.
  - destruct (io_context_ w) as [|t rest] eqn:Hqueue; [by simplify_eq|].
    destruct t as [r1|r1|r1]; cbn [run_task] in Hs.
    + unfold run_ReadDone, with_reactor in Hs. cbn in Hs.
      destruct (heap w !! r1) as [x|]; [|done]. simplify_eq. world_simpl.
      by rewrite writes_snoc, Nat.add_0_r.
    + destruct (decide (r1 = r)) as [->|Hne]; [by destruct (Hq rest)|].
      by apply (SendMessage_other_writes r) in Hs.
    + unfold run_RaySyncDone, with_reactor in Hs. cbn in Hs.
      destruct (heap w !! r1) as [x|]; [|done]. simplify_eq.
      by destruct (followers_ (syncer w) !! node_id x).
Qed.

(** With no token left, a step starts no write of [r]. *)
Lemma idle_step_writes r e w w' :
  token_bound 0 r w → enabled e w = true →
  handle kComponentArraySize Update UpdateBatch SyncMessages e w = Done w' →
  writes r (trace w') = writes r (trace w).
Proof.
  intros Hidle Hen Hs. eapply step_writes; [done| |].
  - intros ->. cbn in Hen. unfold reactor_has, token_bound, tokens in *.
    destruct (heap w !! r) as [x|]; [|done].
    apply bool_decide_eq_true in Hen as [d Hd]. rewrite Hd in Hidle.
    cbn in Hidle. lia.
  - intros rest Hq ->. cbn in Hs. rewrite Hq in Hs. cbn in Hs.
    unfold SendMessage, with_reactor, token_bound, tokens in *. cbn in Hs.
    destruct (heap w !! r) as [x|]; [|done].
    rewrite Hq, pending_cons, decide_True in Hidle by done. lia.
Qed.

Lemma idle_runs_writes r w es w' :
  runs kComponentArraySize Update UpdateBatch SyncMessages w es w' →
  token_bound 0 r w → writes r (trace w') = writes r (trace w).
Proof.
  induction 1 as [|w e w1 es w2 Hen Hs _ IH]; [done|].
  intros Hidle. rewrite IH by by eapply step_token_bound.
  by eapply idle_step_writes.
Qed.

(** X4.  In every run from a world at rest, a live reactor has at most one
    thing that can make it run [SendMessage]: a posted ["RaySyncWrite"]
    handler, a write in flight, an armed timer, or a handshake in flight.
    While its write is in flight its timer is not armed and no
    ["RaySyncWrite"] handler of it is posted, and while its timer is armed no
    write of it is in flight and no such handler is posted. *)
Theorem one_continuation r w es w' x :
  quiescent w →
  runs kComponentArraySize Update UpdateBatch SyncMessages w es w' →
  heap w' !! r = Some x →
  tokens r x (io_context_ w') ≤ 1 ∧
  (write_in_flight x = true →
   timer x = None ∧ metadata_in_flight x = false ∧
   RaySyncWrite r ∉ io_context_ w') ∧
  (is_Some (timer x) →
   write_in_flight x = false ∧ metadata_in_flight x = false ∧
   RaySyncWrite r ∉ io_context_ w').
Proof.
  intros Hq Hruns Hr.
  pose proof (runs_token_bound 1 r _ _ _ Hruns (quiescent_token_bound r w Hq))
    as HJ.
  unfold token_bound in HJ. rewrite Hr in HJ. destruct HJ as [_ Ht].
  split; [done|]. unfold tokens in Ht.
  split.
  - intros Hw. rewrite Hw in Ht. rewrite <- pending_zero.
    destruct (timer x), (metadata_in_flight x); simpl in *;
      repeat split; try done; lia.
  - intros [d Hd]. rewrite Hd in Ht. rewrite <- pending_zero.
    destruct (write_in_flight x), (metadata_in_flight x); simpl in *;
      repeat split; try done; lia.
Qed.

(** X5.  While a write of a reactor is in flight, no step starts another
    write on it: [StartWrite] is never called again before [OnWriteDone]. *)
Theorem no_write_while_in_flight r w0 es w e w' x :
  quiescent w0 →
  runs kComponentArraySize Update UpdateBatch SyncMessages w0 es w →
  heap w !! r = Some x → write_in_flight x = true →
  enabled e w = true →
  handle kComponentArraySize Update UpdateBatch SyncMessages e w = Done w' →
  writes r (trace w') = writes r (trace w).
Proof.
  intros Hq Hruns Hr Hw Hen Hs.
  pose proof (runs_token_bound 1 r _ _ _ Hruns (quiescent_token_bound r w0 Hq))
    as HJ.
  unfold token_bound, tokens in HJ. rewrite Hr, Hw in HJ. destruct HJ as [_ Ht].
  eapply step_writes; [done| |].
  - intros ->. cbn in Hen. unfold reactor_has in Hen. rewrite Hr in Hen.
    apply bool_decide_eq_true in Hen as [d Hd]. rewrite Hd in Ht.
    cbn in Ht. lia.
  - intros rest Hqueue ->.
    rewrite Hqueue, pending_cons, decide_True in Ht by done. cbn in Ht. lia.
Qed.

(** X6.  When the wait of the timer ends with [operation_aborted], the
    callback returns at once: the syncer, the calls made so far and the
    posted handlers are as before, and the reactor never writes again,
    whatever happens later. *)
Theorem cancelled_timer_stops_writer r w0 es1 w1 w2 es2 w3 :
  quiescent w0 →
  runs kComponentArraySize Update UpdateBatch SyncMessages w0 es1 w1 →
  enabled (TimerEvent r (Some operation_aborted)) w1 = true →
  handle kComponentArraySize Update UpdateBatch SyncMessages
         (TimerEvent r (Some operation_aborted)) w1 = Done w2 →
  runs kComponentArraySize Update UpdateBatch SyncMessages w2 es2 w3 →
  syncer w2 = syncer w1 ∧ trace w2 = trace w1 ∧
  io_context_ w2 = io_context_ w1 ∧
  writes r (trace w3) = writes r (trace w1).
Proof.
  intros Hq Hruns1 Hen Hs Hruns2.
  pose proof (runs_token_bound 1 r _ _ _ Hruns1 (quiescent_token_bound r w0 Hq))
    as HJ.
  cbn in Hen, Hs. unfold reactor_has, with_reactor in *.
  destruct (heap w1 !! r) as [x|] eqn:Hr; [|done].
  apply bool_decide_eq_true in Hen as [d Hd]. cbn in Hs. simplify_eq.
  do 3 (split; [done|]).
  rewrite (idle_runs_writes r _ _ _ Hruns2); [done|].
  unfold token_bound, tokens in *. world_simpl. rewrite lookup_insert_eq.
  world_simpl. rewrite Hr, Hd in HJ. destruct HJ as [? Ht]. split; [done|].
  destruct (write_in_flight x), (metadata_in_flight x); simpl in *; lia.
Qed.

(** X7.  When sending the initial metadata fails, the hub-side reactor asks
    for the call to finish with status OK, posts nothing, and never writes,
    whatever happens later. *)
Theorem metadata_failure_finishes r w0 es1 w1 w2 es2 w3 :
  quiescent w0 →
  runs kComponentArraySize Update UpdateBatch SyncMessages w0 es1 w1 →
  enabled (RpcSendInitialMetadataDone r false) w1 = true →
  handle kComponentArraySize Update UpdateBatch SyncMessages
         (RpcSendInitialMetadataDone r false) w1 = Done w2 →
  runs kComponentArraySize Update UpdateBatch SyncMessages w2 es2 w3 →
  trace w2 = trace w1 ++ [Finish r OK] ∧
  io_context_ w2 = io_context_ w1 ∧
  writes r (trace w3) = writes r (trace w1).
Proof.
  intros Hq Hruns1 Hen Hs Hruns2.
  pose proof (runs_token_bound 1 r _ _ _ Hruns1 (quiescent_token_bound r w0 Hq))
    as HJ.
  cbn in Hen, Hs. unfold reactor_has, with_reactor in *.
  destruct (heap w1 !! r) as [x|] eqn:Hr; [|done].
  apply andb_prop in Hen as [_ Hmeta].
  unfold OnSendInitialMetadataDone in Hs. rewrite with_reactor_set in Hs.
  simplify_eq. do 2 (split; [done|]).
  rewrite (idle_runs_writes r _ _ _ Hruns2).
  - world_simpl. by rewrite writes_snoc, Nat.add_0_r.
  - unfold token_bound, tokens in *. world_simpl. rewrite lookup_insert_eq.
    world_simpl. rewrite Hr, Hmeta in HJ. destruct HJ as [? Ht]. split; [done|].
    destruct (write_in_flight x), (timer x); simpl in *; lia.
Qed.





End MoreReactorFacts.

Section MorePeerTable.

Variable kComponentArraySize : nat.
Variable Update : NodeId → RaySyncMessage → RaySyncer → RaySyncer.
Variable UpdateBatch : NodeId → RaySyncMessages → RaySyncer → RaySyncer.
Variable SyncMessages : NodeId → RaySyncer → RaySyncMessages * RaySyncer.

Hypothesis Update_followers :
  ∀ from m s, followers_ (Update from m s) = followers_ s.
Hypothesis UpdateBatch_followers :
  ∀ from batch s, followers_ (UpdateBatch from batch s) = followers_ s.
Hypothesis SyncMessages_followers :
  ∀ peer s, followers_ (SyncMessages peer s).2 = followers_ s.

Implicit Types (r : rid) (w : World) (x : Reactor) (s : RaySyncer) (e : Event).

Ltac world_simpl :=
  cbn [heap trace io_context_ next_reactor syncer
       set_reactor set_syncer emit dispatch destroy
       write_in_flight timer metadata_in_flight kind node_id
       set_write_in_flight set_timer set_metadata_in_flight set_in_message
       set_out_message set_buffer set_node_id ResetOutMessage
       followers_ set_followers set_cluster_messages AddNode Register] in *.

Lemma followers_live_frame w w' :
  followers_ (syncer w') = followers_ (syncer w) →
  (∀ r x, heap w !! r = Some x → kind x = ServerSide →
     ∃ x', heap w' !! r = Some x' ∧ kind x' = ServerSide ∧
           node_id x' = node_id x) →
  followers_live w → followers_live w'.
Proof.
  intros Hf Hh Hlive n r Hn. rewrite Hf in Hn.
  destruct (Hlive _ _ Hn) as (x & Hx & Hk & <-).
  destruct (Hh _ _ Hx Hk) as (x' & ? & ? & ?). eauto.
Qed.

(** The reactor [r], live as [x], is replaced by one of the same kind and
    node id (or is a client). *)
Ltac live_updated r Hr :=
  apply followers_live_frame; world_simpl;
  [ rewrite ?collect_snapshots_followers,
            ?Update_followers, ?UpdateBatch_followers; done
  | let r1 := fresh "r1" in let x1 := fresh "x1" in
    let H := fresh "H" in let Hk := fresh "Hk" in
    intros r1 x1 H Hk; destruct (decide (r1 = r)) as [->|?];
    [ rewrite Hr in H; simplify_eq; rewrite ?lookup_insert_eq;
      eexists; split; [reflexivity|]; world_simpl; try done
    | rewrite ?lookup_insert_ne by done; eauto ] ].

Lemma SendMessage_followers_live r w w' :
  SendMessage kComponentArraySize Update SyncMessages r w = Done w' →
  followers_live w → followers_live w'.
Proof.
  unfold SendMessage, with_reactor. intros Hs.
  destruct (heap w !! r) as [x|] eqn:Hr; [|done].
  destruct (SyncMessages _ _) as [drained s2] eqn:ES.
  assert (followers_ s2 = followers_ (syncer w)) as Hf.
  { change s2 with (drained, s2).2. rewrite <- ES.
    rewrite SyncMessages_followers. by apply collect_snapshots_followers. }
  destruct drained as [|m drained].
  - unfold OnWriteDone in Hs. rewrite with_reactor_set in Hs. simplify_eq.
    live_updated r Hr.
  - simplify_eq. live_updated r Hr.
Qed.

Lemma Accept_followers_live n w :
  followers_ok w → followers_live w → followers_live (Accept n w).2.
Proof.
  intros [H1 _] Hlive. unfold Accept, construct_server_reactor. cbn.
  case_bool_decide as Hfree; unfold followers_live; world_simpl.
  - intros n' r'. destruct (decide (n' = n)) as [->|Hne].
    + rewrite lookup_insert_eq. intros [= <-]. rewrite lookup_insert_eq. eauto.
    + rewrite lookup_insert_ne by done. intros Hn'.
      destruct (Hlive _ _ Hn') as (x & Hx & ? & ?).
      rewrite lookup_insert_ne; [eauto|]. specialize (H1 _ _ Hx). lia.
  - intros n' r' Hn'. destruct (Hlive _ _ Hn') as (x & Hx & ? & ?).
    specialize (H1 _ _ Hx).
    rewrite lookup_delete_ne, lookup_insert_ne by lia. eauto.
Qed.

Lemma run_RaySyncDone_followers_live r w w' :
  run_RaySyncDone r w = Done w' → followers_live w → followers_live w'.
Proof.
  unfold run_RaySyncDone, with_reactor. intros Hs Hlive.
  destruct (heap w !! r) as [x|] eqn:Hr; [|done]. simplify_eq.
  destruct (followers_ (syncer w) !! node_id x) as [owned|] eqn:Ho;
    unfold followers_live; world_simpl.
  - intros n' r' [Hne Hn']%lookup_delete_Some.
    destruct (Hlive _ _ Hn') as (x' & Hx' & ? & ?).
    rewrite lookup_delete_ne; [eauto|]. intros <-.
    destruct (Hlive _ _ Ho) as (xo & Hxo & ? & ?). congruence.
  - intros n' r' [Hne Hn']%lookup_delete_Some. by apply Hlive.
Qed.

Lemma step_followers_live e w w' :
  enabled e w = true →
  handle kComponentArraySize Update UpdateBatch SyncMessages e w = Done w' →
  followers_ok w → followers_live w → followers_live w'.
Proof.
  intros Hen Hs Hok.
  destruct e as [c rp rc|from m|md|r ok|r ok md|r ok batch|r ok|r|r err|];
    cbn [handle enabled] in *.
  - simplify_eq. apply followers_live_frame; world_simpl; eauto.
  - simplify_eq. apply followers_live_frame; world_simpl; eauto.
  - unfold StartSync in Hs. destruct (metadata_find _ _) as [n|]; [|done].
    destruct (Accept _ _) as [res w2] eqn:EA. simplify_eq.
    change w' with (res, w').2. rewrite <- EA. intros Hlive.
    apply Accept_followers_live.
    + revert Hok. apply followers_ok_frame; world_simpl; eauto.
    + revert Hlive. apply followers_live_frame; world_simpl; eauto.
  - unfold reactor_has, with_reactor, OnSendInitialMetadataDone in *.
    destruct (heap w !! r) as [x|] eqn:Hr; [|done].
    rewrite with_reactor_set in Hs. destruct ok; simplify_eq; live_updated r Hr.
  - unfold reactor_has, with_reactor, OnReadInitialMetadataDone in *.
    destruct (heap w !! r) as [x|] eqn:Hr; [|done].
    rewrite with_reactor_set in Hs.
    apply andb_prop in Hen as [Hc _]. unfold is_client, is_server in Hc.
    destruct ok; [|done]. destruct (metadata_find _ _) as [n|]; [|done].
    simplify_eq. live_updated r Hr. all: by rewrite Hk in Hc.
  - unfold with_reactor, OnReadDone in *.
    destruct (heap w !! r) as [x|] eqn:Hr; [|done].
    destruct ok; rewrite ?with_reactor_set in Hs; unfold with_reactor in Hs;
      rewrite ?Hr in Hs; simplify_eq.
    + live_updated r Hr.
    + apply followers_live_frame; world_simpl; eauto.
  - unfold reactor_has, with_reactor, OnWriteDone in *.
    destruct (heap w !! r) as [x|] eqn:Hr; [|done].
    rewrite with_reactor_set in Hs. destruct ok; simplify_eq; live_updated r Hr.
  - unfold OnDone, with_reactor in *.
    destruct (heap w !! r) as [x|] eqn:Hr; [|done]. simplify_eq.
    apply followers_live_frame; world_simpl; eauto.
  - unfold reactor_has, with_reactor, timer_callback in *.
    destruct (heap w !! r) as [x|] eqn:Hr; [|done].
    destruct err as [[]|]; [| done |].
    + simplify_eq. live_updated r Hr.
    + intros HJ. eapply SendMessage_followers_live; [exact Hs|]. revert HJ.
      live_updated r Hr.
  - destruct (io_context_ w) as [|t rest] eqn:Hq; [done|].
    destruct t as [r|r|r]; cbn [run_task] in Hs.
    + unfold run_ReadDone, with_reactor in Hs. world_simpl.
      destruct (heap w !! r) as [x|] eqn:Hr; [|done]. simplify_eq.
      live_updated r Hr.
    + intros HJ. eapply SendMessage_followers_live; [exact Hs|]. revert HJ.
      apply followers_live_frame; world_simpl; eauto.
    + intros HJ. eapply run_RaySyncDone_followers_live; [exact Hs|]. revert HJ.
      apply followers_live_frame; world_simpl; eauto.
Qed.

(** X9.  The peer table never dangles: in every run, each entry of
    [followers_] points to a live hub-side reactor whose node id is the key
    of the entry. *)
Theorem followers_never_dangle w es w' :
  followers_ok w → followers_live w →
  runs kComponentArraySize Update UpdateBatch SyncMessages w es w' →
  followers_live w'.
Proof.
  intros Hok Hlive Hruns. revert Hok Hlive.
  induction Hruns as [|w e w1 es w2 Hen Hs _ IH]; [done|].
  intros Hok Hlive. apply IH.
  - by eapply step_followers_ok.
  - by eapply step_followers_live.
Qed.

End MorePeerTable.

Section MoreHandlers.

Variable kComponentArraySize : nat.
Variable Update : NodeId → RaySyncMessage → RaySyncer → RaySyncer.
Variable UpdateBatch : NodeId → RaySyncMessages → RaySyncer → RaySyncer.
Variable SyncMessages : NodeId → RaySyncer → RaySyncMessages * RaySyncer.

Implicit Types (r : rid) (w : World) (x : Reactor) (s : RaySyncer) (e : Event).

(** X10.  When [StartSync] returns, it hands back a live hub-side reactor
    that is registered in the peer table under the ["node_id"] of the
    client metadata and carries that node id. *)
Theorem StartSync_returns_live_reactor (client_metadata : Metadata) w result w' :
  followers_ok w → followers_live w →
  StartSync client_metadata w = Done (result, w') →
  ∃ peer r x,
    metadata_find "node_id" client_metadata = Some peer ∧
    result = Some r ∧ followers_ (syncer w') !! peer = Some r ∧
    heap w' !! r = Some x ∧ kind x = ServerSide ∧ node_id x = peer.
Proof.
  intros [Hlt _] Hlive. unfold StartSync.
  destruct (metadata_find _ _) as [peer|]; [|done].
  unfold Accept, construct_server_reactor. cbn. intros [= <- <-].
  exists peer. case_bool_decide as Hfree; cbn.
  - exists (next_reactor w), (new_server_reactor peer).
    rewrite !lookup_insert_eq. done.
  - destruct (followers_ (syncer w) !! peer) as [r|] eqn:Hreg; [|done].
    destruct (Hlive _ _ Hreg) as (x & Hx & Hk & Hn).
    exists r, x. specialize (Hlt _ _ Hx).
    rewrite lookup_delete_ne, lookup_insert_ne by lia. done.
Qed.

(** X11.  The ["RaySyncDone"] handler of a hub-side reactor destroys the
    reactor that posted it: the entry erased from the peer table under its
    node id is the [unique_ptr] that owns it.  The message store, the calls
    made so far and the posted handlers are as before. *)
Theorem server_done_destroys_itself r w x :
  followers_ok w → heap w !! r = Some x → kind x = ServerSide →
  ∃ w',
    run_RaySyncDone r w = Done w' ∧
    heap w' = delete r (heap w) ∧
    followers_ (syncer w') = delete (node_id x) (followers_ (syncer w)) ∧
    cluster_messages_ (syncer w') = cluster_messages_ (syncer w) ∧
    trace w' = trace w ∧ io_context_ w' = io_context_ w.
Proof.
  intros [_ Hreg] Hr Hk. specialize (Hreg _ _ Hr Hk).
  unfold run_RaySyncDone, with_reactor. rewrite Hr, Hreg.
  eexists. split; [reflexivity|]. done.
Qed.

(** X12.  The two ends of the handshake fit together.  The constructor of
    the follower-side reactor sends its node id as ["node_id"] with the
    call; [StartSync] on the hub accepts that, registers a reactor for the
    follower with an empty sub-map, and attaches the node id of the hub as
    ["node_id"] to its response; with that response
    [OnReadInitialMetadataDone] on the follower does not abort: it takes the
    node id of the hub as the node id of the reactor, creates the empty
    sub-map of the hub, arms a read and posts [SendMessage]. *)
Theorem follower_handshake (n : NodeId) (follower hub : World) :
  ∃ r request follower1 reactor hub1 follower2,
    construct_client_reactor n follower
      = (r, [StubStartSync r request; StartCall r], follower1) ∧
    StartSync request hub = Done (Some reactor, hub1) ∧
    followers_ (syncer hub1) !! n = Some reactor ∧
    cluster_messages_ (syncer hub1) !! n = Some ∅ ∧
    response_metadata (drop (length (trace hub)) (trace hub1))
      = [("node_id", node_id_ (syncer hub))] ∧
    OnReadInitialMetadataDone true
      (response_metadata (drop (length (trace hub)) (trace hub1))) r follower1
      = Done follower2 ∧
    node_id <$> heap follower2 !! r = Some (node_id_ (syncer hub)) ∧
    cluster_messages_ (syncer follower2) !! node_id_ (syncer hub) = Some ∅ ∧
    trace follower2 = trace follower ++ [StartRead r] ∧
    io_context_ follower2 = io_context_ follower ++ [RaySyncWrite r].
Proof.
  assert (metadata_find "node_id" [("node_id", n)] = Some n) as Hfind
    by reflexivity.
  destruct (Accept n (emit (AddInitialMetadata "node_id"
                              (GetNodeId (syncer hub))) hub))
    as [result hub1] eqn:EA.
  pose proof EA as EA'.
  unfold Accept, construct_server_reactor in EA'. cbn in EA'.
  assert (∃ reactor, result = Some reactor ∧
            followers_ (syncer hub1) !! n = Some reactor) as (reactor & -> & Hreg).
  { case_bool_decide as Hfree; simplify_eq; cbn.
    - rewrite lookup_insert_eq. eauto.
    - destruct (followers_ (syncer hub) !! n) as [r0|]; [eauto|done]. }
  assert (cluster_messages_ (syncer hub1) !! n = Some ∅) as Hstore.
  { case_bool_decide; simplify_eq; cbn; apply lookup_insert_eq. }
  assert (trace hub1 = trace hub ++
            [AddInitialMetadata "node_id" (node_id_ (syncer hub));
             StartSendInitialMetadata (next_reactor hub)]) as Htrace.
  { case_bool_decide; simplify_eq; cbn; by rewrite <- app_assoc. }
  clear EA'.
  exists (next_reactor follower), [("node_id", n)].
  eexists. exists reactor, hub1. eexists.
  split; [reflexivity|].
  split; [unfold StartSync; by rewrite Hfind, EA|].
  split; [done|]. split; [done|].
  rewrite Htrace, drop_app_length.
  split; [reflexivity|].
  unfold OnReadInitialMetadataDone, with_reactor.
  cbn [response_metadata omap list_omap heap]. rewrite lookup_insert_eq.
  assert (metadata_find "node_id" [("node_id", node_id_ (syncer hub))]
          = Some (node_id_ (syncer hub))) as -> by reflexivity.
  split; [reflexivity|]. cbn. by rewrite !lookup_insert_eq.
Qed.

(** X13.  After [Register] has bound a reporter to a slot, the collecting
    loop of [SendMessage] passes to [Update], under the node id of this
    node and in slot order, the snapshots of the reporters bound to the
    lower slots, the snapshot of the new reporter (none, if the slot was
    bound to null), and the snapshots of the reporters of the higher
    slots. *)
Theorem registered_reporter_is_asked (c : RayComponentId)
    (reporter : option Reporter) (receiver : option Receiver) s :
  (∀ from m s', reporters_ (Update from m s') = reporters_ s' ∧
                node_id_ (Update from m s') = node_id_ s') →
  c < length (reporters_ s) → c < kComponentArraySize →
  collect_snapshots Update kComponentArraySize 0
                    (Register c reporter receiver s)
  = foldl (λ s' m, Update (node_id_ s) m s') (Register c reporter receiver s)
      (omap (λ slot : option Reporter, Snapshot <$> slot) (take c (reporters_ s))
       ++ option_list (Snapshot <$> reporter)
       ++ omap (λ slot : option Reporter, Snapshot <$> slot)
               (drop (S c) (take kComponentArraySize (reporters_ s)))).
Proof.
  intros HU Hc Hk. rewrite collect_snapshots_bound by done.
  unfold bound_snapshots. cbn [reporters_ node_id_ Register].
  f_equal.
  rewrite take_insert_lt by done.
  rewrite insert_take_drop by (rewrite length_take; lia).
  rewrite take_take. replace (c `min` kComponentArraySize) with c by lia.
  rewrite omap_app. f_equal. by destruct reporter.
Qed.

Lemma reads_snoc r tr a :
  reads r (tr ++ [a]) = reads r tr + (if decide (a = StartRead r) then 1 else 0).
Proof.
  unfold reads. rewrite list.filter_app, length_app. f_equal.
  rewrite list.filter_cons, list.filter_nil. by case_decide.
Qed.

Lemma posted_reads_snoc r q t :
  posted_reads r (q ++ [t])
  = posted_reads r q + (if decide (t = ReadDone r) then 1 else 0).
Proof.
  unfold posted_reads. rewrite list.filter_app, length_app. f_equal.
  rewrite list.filter_cons, list.filter_nil. by case_decide.
Qed.

Lemma posted_reads_cons r q t :
  posted_reads r (t :: q)
  = (if decide (t = ReadDone r) then 1 else 0) + posted_reads r q.
Proof. unfold posted_reads. rewrite list.filter_cons. by case_decide. Qed.

Ltac world_simpl :=
  cbn [heap trace io_context_ next_reactor syncer
       set_reactor set_syncer emit dispatch destroy] in *.

Ltac count_reads :=
  world_simpl;
  rewrite ?reads_snoc, ?posted_reads_snoc, ?posted_reads_cons;
  repeat case_decide; simplify_eq; lia.

Lemma SendMessage_reads r r' w w' :
  SendMessage kComponentArraySize Update SyncMessages r' w = Done w' →
  reads r (trace w') = reads r (trace w) ∧ io_context_ w' = io_context_ w.
Proof.
  unfold SendMessage, with_reactor. intros Hs.
  destruct (heap w !! r') as [x|]; [|done].
  destruct (SyncMessages _ _) as [drained s2]. destruct drained as [|m drained].
  - unfold OnWriteDone in Hs. rewrite with_reactor_set in Hs. simplify_eq.
    split; [count_reads|done].
  - simplify_eq. split; [count_reads|done].
Qed.

Lemma step_reads r e w w' :
  handle kComponentArraySize Update UpdateBatch SyncMessages e w = Done w' →
  reads r (trace w') + posted_reads r (io_context_ w')
  = reads r (trace w) + posted_reads r (io_context_ w) + arms_read r e.
Proof.
  intros Hs.
  destruct e as [c rp rc|from m|md|r1 ok|r1 ok md|r1 ok batch|r1 ok|r1|r1 err|];
    cbn [handle arms_read] in *.
  - simplify_eq. count_reads.
  - simplify_eq. count_reads.
  - unfold StartSync in Hs. destruct (metadata_find _ _) as [n|]; [|done].
    unfold Accept, construct_server_reactor in Hs. cbn in Hs. simplify_eq.
    case_bool_decide; count_reads.
  - unfold with_reactor, OnSendInitialMetadataDone in Hs.
    destruct (heap w !! r1) as [x|]; [|done]. rewrite with_reactor_set in Hs.
    destruct ok; simplify_eq; count_reads.
  - unfold with_reactor, OnReadInitialMetadataDone in Hs.
    destruct (heap w !! r1) as [x|]; [|done]. rewrite with_reactor_set in Hs.
    destruct ok; [|done]. destruct (metadata_find _ _) as [n|]; [|done].
    simplify_eq. count_reads.
  - unfold with_reactor, OnReadDone in Hs.
    destruct (heap w !! r1) as [x|] eqn:Hr; [|done].
    destruct ok; rewrite ?with_reactor_set in Hs; unfold with_reactor in Hs;
      rewrite ?Hr in Hs; simplify_eq; count_reads.
  - unfold with_reactor, OnWriteDone in Hs.
    destruct (heap w !! r1) as [x|]; [|done]. rewrite with_reactor_set in Hs.
    destruct ok; simplify_eq; count_reads.
  - unfold OnDone, with_reactor in Hs.
    destruct (heap w !! r1) as [x|]; [|done]. simplify_eq. count_reads.
  - unfold with_reactor, timer_callback in Hs.
    destruct (heap w !! r1) as [x|]; [|done].
    destruct err as [[]|]; [simplify_eq; count_reads|done|].
    apply (SendMessage_reads r) in Hs as [-> ->]. count_reads.
  - destruct (io_context_ w) as [|t rest] eqn:Hqueue;
      [simplify_eq; rewrite ?Hqueue; lia|].
    destruct t as [r1|r1|r1]; cbn [run_task] in Hs.
    + unfold run_ReadDone, with_reactor in Hs. cbn in Hs.
      destruct (heap w !! r1) as [x|]; [|done]. simplify_eq. count_reads.
    + apply (SendMessage_reads r) in Hs as [-> ->]. count_reads.
    + unfold run_RaySyncDone, with_reactor in Hs. cbn in Hs.
      destruct (heap w !! r1) as [x|]; [|done]. simplify_eq.
      destruct (followers_ (syncer w) !! node_id x); count_reads.
Qed.

(** X14.  Reads are armed one for one: over every run, the reads a reactor
    has armed, together with its posted ["ReadDone"] handlers, grow by
    one for each completed read of it and each successful end of its
    handshake, and by nothing else. *)
Theorem one_read_armed_per_completion r w es w' :
  runs kComponentArraySize Update UpdateBatch SyncMessages w es w' →
  reads r (trace w') + posted_reads r (io_context_ w')
  = reads r (trace w) + posted_reads r (io_context_ w)
    + sum_list (arms_read r <$> es).
Proof.
  induction 1 as [|w e w1 es w2 Hen Hs _ IH]; [cbn; lia|].
  rewrite IH, (step_reads r _ _ _ Hs). cbn. lia.
Qed.

Lemma unstarted_frame r0 w w' :
  (λ x, (write_in_flight x, timer x)) <$> heap w' !! r0
    = (λ x, (write_in_flight x, timer x)) <$> heap w !! r0 →
  next_reactor w ≤ next_reactor w' →
  pending r0 (io_context_ w') = pending r0 (io_context_ w) →
  unstarted r0 w → unstarted r0 w'.
Proof.
  unfold unstarted. intros Hf Hn ->.
  destruct (heap w !! r0) as [x|], (heap w' !! r0) as [x'|]; simplify_eq/=.
  - intros (? & ? & ? & ?). repeat split; [lia|congruence..].
  - intros HJ ?. apply HJ. lia.
Qed.

Ltac world_flags :=
  cbn [heap trace io_context_ next_reactor syncer
       set_reactor set_syncer emit dispatch destroy
       write_in_flight timer metadata_in_flight kind node_id
       set_write_in_flight set_timer set_metadata_in_flight set_in_message
       set_out_message set_buffer set_node_id ResetOutMessage] in *.

Ltac frame_unstarted r r0 Hr :=
  lazymatch goal with
  | H : unstarted ?r0' ?w |- unstarted ?r0' _ =>
      apply (unstarted_frame r0' w); [| | |exact H]
  end;
  world_flags;
  [ destruct (decide (r = r0)) as [->|?];
    (rewrite ?lookup_delete_ne, ?lookup_insert_eq, ?lookup_insert_ne, ?Hr
       by done); done
  | lia
  | rewrite ?pending_snoc; (rewrite ?decide_False by congruence); lia ].

Lemma step_unstarted r0 e w w' :
  enabled e w = true →
  handle kComponentArraySize Update UpdateBatch SyncMessages e w = Done w' →
  ends_handshake r0 e = false →
  unstarted r0 w →
  unstarted r0 w' ∧ writes r0 (trace w') = writes r0 (trace w).
Proof.
  intros Hen Hs Hh HJ. split.
  2:{ eapply step_writes; [done| |].
      - intros ->. cbn in Hen. unfold reactor_has, unstarted in *.
        destruct (heap w !! r0) as [x|]; [|done].
        destruct HJ as (_ & _ & _ & Ht). by rewrite Ht in Hen.
      - intros rest Hq ->. cbn in Hs. rewrite Hq in Hs. cbn in Hs.
        unfold SendMessage, with_reactor, unstarted in *. cbn in Hs.
        destruct (heap w !! r0) as [x|]; [|done].
        destruct HJ as (_ & Hp & _).
        rewrite Hq, pending_cons, decide_True in Hp by done. lia. }
  destruct e as [c rp rc|from m|md|r ok|r ok md|r ok batch|r ok|r|r err|];
    cbn [handle enabled ends_handshake] in *.
  - simplify_eq. by apply (unstarted_frame r0 w).
  - simplify_eq. by apply (unstarted_frame r0 w).
  - unfold StartSync in Hs. destruct (metadata_find _ _) as [n|]; [|done].
    unfold Accept, construct_server_reactor in Hs. cbn in Hs. simplify_eq.
    unfold unstarted in *. case_bool_decide; world_flags.
    + destruct (decide (next_reactor w = r0)) as [<-|Hne].
      * rewrite lookup_insert_eq. cbn.
        destruct (heap w !! next_reactor w); [lia|].
        repeat split; [lia|by apply HJ|done..].
      * rewrite lookup_insert_ne by done.
        destruct (heap w !! r0); [|intros; apply HJ; lia].
        destruct HJ as (? & ? & ? & ?). repeat split; try done. lia.
    + destruct (decide (next_reactor w = r0)) as [<-|Hne].
      * rewrite lookup_delete_eq. lia.
      * rewrite lookup_delete_ne, lookup_insert_ne by done.
        destruct (heap w !! r0); [|intros; apply HJ; lia].
        destruct HJ as (? & ? & ? & ?). repeat split; try done. lia.
  - unfold reactor_has, with_reactor, OnSendInitialMetadataDone in *.
    destruct (heap w !! r) as [x|] eqn:Hr; [|done].
    rewrite with_reactor_set in Hs.
    destruct ok; simplify_eq.
    + apply bool_decide_eq_false in Hh. frame_unstarted r r0 Hr.
    + frame_unstarted r r0 Hr.
  - unfold reactor_has, with_reactor, OnReadInitialMetadataDone in *.
    destruct (heap w !! r) as [x|] eqn:Hr; [|done].
    rewrite with_reactor_set in Hs.
    destruct ok; [|done]. destruct (metadata_find _ _) as [n|]; [|done].
    simplify_eq. apply bool_decide_eq_false in Hh. frame_unstarted r r0 Hr.
  - unfold with_reactor, OnReadDone in *.
    destruct (heap w !! r) as [x|] eqn:Hr; [|done].
    destruct ok; rewrite ?with_reactor_set in Hs; unfold with_reactor in Hs;
      rewrite ?Hr in Hs; simplify_eq; frame_unstarted r r0 Hr.
  - unfold reactor_has, with_reactor, OnWriteDone in *.
    destruct (heap w !! r) as [x|] eqn:Hr; [|done].
    rewrite with_reactor_set in Hs.
    destruct (decide (r = r0)) as [->|Hne].
    + unfold unstarted in HJ. rewrite Hr in HJ.
      destruct HJ as (_ & _ & Hw & _). congruence.
    + destruct ok; simplify_eq; frame_unstarted r r0 Hr.
  - unfold OnDone, with_reactor in *.
    destruct (heap w !! r) as [x|] eqn:Hr; [|done]. simplify_eq.
    frame_unstarted r r0 Hr.
  - unfold reactor_has, with_reactor, timer_callback in *.
    destruct (heap w !! r) as [x|] eqn:Hr; [|done].
    apply bool_decide_eq_true in Hen as [d Hd].
    destruct (decide (r = r0)) as [->|Hne].
    { unfold unstarted in HJ. rewrite Hr in HJ.
      destruct HJ as (_ & _ & _ & Ht). congruence. }
    destruct err as [[]|]; [| done |].
    + simplify_eq. frame_unstarted r r0 Hr.
    + unfold SendMessage, with_reactor in Hs. world_flags.
      rewrite lookup_insert_eq in Hs.
      destruct (SyncMessages _ _) as [drained s2].
      destruct drained as [|m drained].
      * unfold OnWriteDone in Hs. rewrite with_reactor_set in Hs. simplify_eq.
        frame_unstarted r r0 Hr.
      * simplify_eq. frame_unstarted r r0 Hr.
  - destruct (io_context_ w) as [|t rest] eqn:Hq; [done|].
    destruct t as [r|r|r]; cbn [run_task] in Hs.
    + unfold run_ReadDone, with_reactor in Hs. cbn in Hs.
      destruct (heap w !! r) as [x|] eqn:Hr; [|done]. simplify_eq.
      apply (unstarted_frame r0 w); world_flags; [| lia | | done].
      * destruct (decide (r = r0)) as [->|?];
          (rewrite ?lookup_insert_eq, ?lookup_insert_ne, ?Hr by done); done.
      * by rewrite Hq, pending_cons, decide_False.
    + destruct (decide (r = r0)) as [->|Hne].
      { unfold SendMessage, with_reactor, unstarted in *. cbn in Hs.
        destruct (heap w !! r0) as [x|]; [|done].
        destruct HJ as (_ & Hp & _).
        rewrite Hq, pending_cons, decide_True in Hp by done. lia. }
      unfold SendMessage, with_reactor in Hs. cbn in Hs.
      destruct (heap w !! r) as [x|] eqn:Hr; [|done].
      destruct (SyncMessages _ _) as [drained s2].
      assert (pending r0 rest = pending r0 (io_context_ w)) as Hp.
      { rewrite Hq, pending_cons, decide_False by congruence. done. }
      destruct drained as [|m drained].
      * unfold OnWriteDone in Hs. rewrite with_reactor_set in Hs. simplify_eq.
        apply (unstarted_frame r0 w); world_flags; [| lia | done | done].
        by rewrite !lookup_insert_ne.
      * simplify_eq.
        apply (unstarted_frame r0 w); world_flags; [| lia | done | done].
        by rewrite !lookup_insert_ne.
    + unfold run_RaySyncDone, with_reactor in Hs. cbn in Hs.
      destruct (heap w !! r) as [x|] eqn:Hr; [|done]. simplify_eq.
      assert (pending r0 rest = pending r0 (io_context_ w)) as Hp.
      { by rewrite Hq, pending_cons, decide_False. }
      destruct (followers_ (syncer w) !! node_id x) as [owned|]; world_flags.
      * destruct (decide (owned = r0)) as [->|Hne].
        -- unfold unstarted in *. world_flags. rewrite lookup_delete_eq.
           destruct (heap w !! r0); [lia|intros; rewrite Hp; apply HJ; lia].
        -- apply (unstarted_frame r0 w); world_flags; try done.
           by rewrite lookup_delete_ne.
      * by apply (unstarted_frame r0 w).
Qed.

Lemma quiescent_unstarted r0 w : quiescent w → unstarted r0 w.
Proof.
  intros (Ht & Hq & Hh). unfold unstarted. rewrite Hq.
  destruct (heap w !! r0) as [x|] eqn:Hr; [|done].
  by destruct (Hh _ _ Hr) as (? & -> & ->).
Qed.

(** X15.  No write before the handshake: in a run from a world at rest in
    which the handshake of a reactor does not end successfully, the reactor
    writes nothing. *)
Theorem no_write_before_handshake r w es w' :
  quiescent w →
  runs kComponentArraySize Update UpdateBatch SyncMessages w es w' →
  (∀ e, e ∈ es → ends_handshake r e = false) →
  writes r (trace w') = 0.
Proof.
  intros Hq Hruns Hes.
  assert (writes r (trace w) = 0) as <-.
  { destruct Hq as (-> & _). done. }
  pose proof (quiescent_unstarted r w Hq) as HJ. clear Hq.
  induction Hruns as [|w e w1 es w2 Hen Hs _ IH]; [done|].
  destruct (step_unstarted r e w w1 Hen Hs) as [HJ1 <-]; [|done|].
  - apply Hes. left.
  - apply IH; [|done]. intros e' He'. apply Hes. by right.
Qed.

End MoreHandlers.

(** * The claims on sample inputs *)

(** C1, as stated, fails: the sender of the newest version keeps the older
    one. *)
Lemma ingest_sender_keeps_older_version :
  ¬ (∀ (self : NodeId) (viewers : list NodeId)
       (calls : list (NodeId * RaySyncMessage)) (v : NodeId)
       (key : MessageKey) (ver : N),
       Store.stored_version
         (Store.ingest_all self calls (Store.with_viewers viewers)) v key
         = Some ver →
       Store.max_ingested calls key = Some ver).
Proof.
  intros H.
  specialize (H "H" ["A"; "B"] [("A", sample_c5); ("B", sample_c6)]
                "B" ("C", 0) 5%N).
  vm_compute in H. by specialize (H eq_refl).
Qed.

Lemma ingest_versions_monotone_witness :
  Store.max_ingested [("A", sample_c5); ("B", sample_c6)] (key_of sample_c6)
    = Some (version sample_c6) ∧
  Store.stored_version
    (Store.ingest_all "H" [("A", sample_c5); ("B", sample_c6)]
                      (Store.with_viewers ["A"; "B"]))
    "A" (key_of sample_c6) = Some (version sample_c6).
Proof.
  apply (proj1 (proj2 (proj2
           (ingest_versions_monotone "H" ["A"; "B"]
              [("A", sample_c5); ("B", sample_c6)])))
         [("A", sample_c5)] "B" sample_c6 [] "A").
  - reflexivity.
  - intros from m Hin _. apply list_elem_of_singleton in Hin.
    injection Hin as -> ->. vm_compute. reflexivity.
  - intros from m Hin. by apply elem_of_nil in Hin.
  - left.
  - discriminate.
  - discriminate.
Defined.

(** C2, as stated, fails.  A message accepted from ["X"] comes back from
    ["Y"] once the store has forgotten it, and is then drained for ["X"].
    And with nothing forgotten: a message queued for ["X"] by a call from
    ["Y"] is drained for ["X"] although ["X"] sent it as well. *)
Lemma message_from_sender_drained_for_sender :
  ¬ (∀ (self : NodeId) (before after : list Store.Op) (X : NodeId)
       (m : RaySyncMessage),
       Store.strictly_newer (Store.run_ops self before ∅) m = true →
       m ∉ (Store.DrainFor X
              (Store.run_ops self (before ++ Store.OpIngest X m :: after) ∅)).1) ∧
  ¬ (∀ (self : NodeId) (before after : list Store.Op) (X : NodeId)
       (m : RaySyncMessage),
       m ∉ (Store.DrainFor X
              (Store.run_ops self (before ++ Store.OpIngest X m :: after) ∅)).1).
Proof.
  split; intros H.
  - specialize (H "H" [Store.OpAddViewer "X"; Store.OpAddViewer "Y"]
                  [Store.OpDrainFor "Y"; Store.OpIngest "Y" sample_c5]
                  "X" sample_c5 eq_refl).
    apply H. vm_compute. left.
  - specialize (H "H" [Store.OpAddViewer "X"; Store.OpAddViewer "Y";
                       Store.OpIngest "Y" sample_c5]
                  [] "X" sample_c5).
    apply H. vm_compute. left.
Qed.

Lemma ingest_skips_origin_and_sender_witness :
  (Store.Ingest "H" "A" sample_c5
     (Store.run_ops "H" [Store.OpAddViewer "A"; Store.OpAddViewer "B"] ∅)).1
    !! "B"
  = Some (if decide ("B" = origin_node sample_c5 ∨ "B" = "A") then ∅
          else <[key_of sample_c5 := sample_c5]> ∅).
Proof.
  apply (proj1 (ingest_skips_origin_and_sender "H"
                  [Store.OpAddViewer "A"; Store.OpAddViewer "B"]
                  "A" sample_c5 "B")).
  - vm_compute. reflexivity.
  - vm_compute. reflexivity.
Defined.

(** C3, as stated, fails: a second [Accept] for peer ["A"] leaves the old
    reactor 0 in the peer table and hands it back; the new reactor 1 is
    gone, and no reactor was asked to finish. *)
Lemma accept_keeps_old_reactor :
  (Accept "A" hub_with_peer).1 = Some 0 ∧
  followers_ (syncer (Accept "A" hub_with_peer).2) !! "A" = Some 0 ∧
  heap (Accept "A" hub_with_peer).2 !! 1 = None ∧
  trace (Accept "A" hub_with_peer).2
    = [StartSendInitialMetadata 0; StartSendInitialMetadata 1].
Proof. vm_compute. done. Qed.

Lemma accept_keeps_one_reactor_per_peer_witness :
  (Accept "A" (new_world "H" 1)).1 = Some 0 ∧
  followers_ (syncer (Accept "A" (new_world "H" 1)).2)
    = <[("A" : NodeId) := 0]> (followers_ (syncer (new_world "H" 1))) ∧
  heap (Accept "A" (new_world "H" 1)).2
    = <[0 := new_server_reactor "A"]> (heap (new_world "H" 1)) ∧
  cluster_messages_ (syncer (Accept "A" (new_world "H" 1)).2)
    = <[("A" : NodeId) := ∅]> (cluster_messages_ (syncer (new_world "H" 1))).
Proof.
  apply (proj1 (accept_keeps_one_reactor_per_peer 1 Update_spec UpdateBatch_spec
                  SyncMessages_spec
                  (λ from m s, proj1 (Update_spec_wiring from m s))
                  UpdateBatch_spec_followers SyncMessages_spec_followers
                  "A" (new_world "H" 1))).
  vm_compute. reflexivity.
Defined.

(** C4, as stated, fails: after peer ["A"] disconnects, the store still has
    its sub-map, and the next message is queued for it. *)
Lemma on_done_keeps_store_entry :
  (λ w, (followers_ (syncer w) !! "A",
         cluster_messages_ (syncer w) !! "A",
         Store.stored_version
           (cluster_messages_ (Update_spec "H" sample_h1 (syncer w)))
           "A" (key_of sample_h1)))
    <$> run_spec 1 [RpcDone 0; RunNext] hub_with_peer
  = Some (None, Some ∅, Some 1%N).
Proof. vm_compute. reflexivity. Qed.

Lemma on_done_erases_follower_only_witness :
  ∃ w1 w2,
    handle 1 Update_spec UpdateBatch_spec SyncMessages_spec (RpcDone 0)
           hub_with_peer = Done w1 ∧
    syncer w1 = syncer hub_with_peer ∧ heap w1 = heap hub_with_peer ∧
    trace w1 = trace hub_with_peer ∧
    io_context_ w1 = [RaySyncDone 0] ∧
    handle 1 Update_spec UpdateBatch_spec SyncMessages_spec RunNext w1
      = Done w2 ∧
    followers_ (syncer w2)
      = delete (node_id (new_server_reactor "A"))
               (followers_ (syncer hub_with_peer)) ∧
    cluster_messages_ (syncer w2) = cluster_messages_ (syncer hub_with_peer) ∧
    trace w2 = trace hub_with_peer.
Proof.
  apply (on_done_erases_follower_only 1 Update_spec UpdateBatch_spec
           SyncMessages_spec 0 hub_with_peer (new_server_reactor "A")).
  - vm_compute. reflexivity.
  - reflexivity.
Defined.

(** C5, as stated, fails: without the key the call does not return a
    status, it aborts. *)
Lemma start_sync_without_node_id_aborts :
  StartSync [("user", "x")] (new_world "H" 1) = Abort ∧
  ∀ result, StartSync [("user", "x")] (new_world "H" 1) ≠ Done result.
Proof. split; [reflexivity|]. intros result. discriminate. Qed.

Lemma start_sync_requires_node_id_witness :
  StartSync [("user", "x")] (new_world "H" 1) = Abort.
Proof.
  apply (proj1 (start_sync_requires_node_id [("user", "x")] (new_world "H" 1))).
  intros value Hin. apply list_elem_of_singleton in Hin. discriminate.
Defined.

(** C6, as stated, fails: the second [Register] for slot 0 returns and the
    slot holds the second reporter and receiver. *)
Lemma second_register_rebinds_slot :
  (λ w, (reporters_ (syncer w), receivers_ (syncer w)))
    <$> run_spec 1
          [CallRegister 0 (Some (mkReporter sample_h1)) (Some (mkReceiver 1));
           CallRegister 0 (Some (mkReporter sample_b1)) (Some (mkReceiver 2))]
          (new_world "H" 1)
  = Some ([Some (mkReporter sample_b1)], [Some (mkReceiver 2)]).
Proof. vm_compute. reflexivity. Qed.

(** C7, as stated, fails: after the failed write the reactor is still live
    and registered, the peer still has its sub-map, no [Finish] was issued,
    and a second write follows. *)
Lemma failed_write_is_retried :
  (λ w, (kind <$> heap w !! 0, followers_ (syncer w) !! "A",
         bool_decide (is_Some (cluster_messages_ (syncer w) !! "A")), trace w))
    <$> run_spec 1 failed_write_run (new_world "H" 1)
  = Some (Some ServerSide, Some 0, true,
          [AddInitialMetadata "node_id" "H"; StartSendInitialMetadata 0;
           StartRead 0; StartWrite 0 [sample_b1]; StartWrite 0 [sample_b2]]).
Proof. vm_compute. reflexivity. Qed.

Lemma write_failure_posts_send_message_witness :
  ∃ w1,
    handle 1 Update_spec UpdateBatch_spec SyncMessages_spec
           (RpcWriteDone 0 false) hub_with_peer = Done w1 ∧
    syncer w1 = syncer hub_with_peer ∧
    heap w1 = <[0 := set_write_in_flight false (new_server_reactor "A")]>
                (heap hub_with_peer) ∧
    trace w1 = trace hub_with_peer ∧
    io_context_ w1 = io_context_ hub_with_peer ++ [RaySyncWrite 0] ∧
    run_task 1 Update_spec UpdateBatch_spec SyncMessages_spec (RaySyncWrite 0) w1
      = SendMessage 1 Update_spec SyncMessages_spec 0 w1.
Proof.
  apply (write_failure_posts_send_message 1 Update_spec UpdateBatch_spec
           SyncMessages_spec 0 hub_with_peer (new_server_reactor "A")).
  vm_compute. reflexivity.
Defined.

Lemma send_message_collects_then_writes_witness :
  ∃ w',
    SendMessage 1 Update_spec SyncMessages_spec 0 hub_reporting = Done w' ∧
    trace w' = [StartSendInitialMetadata 0; StartWrite 0 [sample_h1]].
Proof.
  destruct (send_message_collects_then_writes 1 Update_spec SyncMessages_spec
              0 hub_reporting (new_server_reactor "A"))
    as (w' & Hsend & _ & _ & _ & Htrace).
  - intros from m s. split; apply Update_spec_wiring.
  - vm_compute. reflexivity.
  - exists w'. split; [exact Hsend|]. rewrite Htrace. vm_compute. reflexivity.
Defined.

(** C9, as stated, fails: after a write that completes with failure the
    next write follows with no cool-down between the two. *)
Lemma failed_write_skips_cool_down :
  ¬ (∀ (r : rid) (w : World) (es : list Event) (w' : World),
       quiescent w →
       runs 1 Update_spec UpdateBatch_spec SyncMessages_spec w es w' →
       separated r (trace w')).
Proof.
  intros H.
  destruct (run_spec 1 failed_write_run (new_world "H" 1)) as [w'|] eqn:Hrun;
    [|by vm_compute in Hrun].
  specialize (H 0 (new_world "H" 1) failed_write_run w').
  unfold run_spec in Hrun.
  pose proof (run_runs _ _ _ _ _ _ _ Hrun) as Hruns.
  vm_compute in Hrun. injection Hrun as <-.
  destruct (H ltac:(by repeat split) Hruns 3 4 [sample_b1] [sample_b2])
    as (a & e & ? & ? & ? & _); [lia|reflexivity|reflexivity|lia].
Qed.

Lemma cool_down_between_writes_witness :
  ∃ w',
    run_spec 1 cool_down_run (new_world "H" 1) = Some w' ∧
    separated 0 (trace w').
Proof.
  destruct (run_spec 1 cool_down_run (new_world "H" 1)) as [w'|] eqn:Hrun;
    [|by vm_compute in Hrun].
  exists w'. split; [reflexivity|].
  apply (proj2 (proj2 (proj2
           (cool_down_between_writes 1 Update_spec UpdateBatch_spec
              SyncMessages_spec 0 (new_world "H" 1))))
         cool_down_run w').
  - by repeat split.
  - by apply run_runs.
  - intros Hin. unfold cool_down_run, write_then in Hin.
    repeat (apply elem_of_cons in Hin as [Hin|Hin]; [discriminate|]).
    by apply elem_of_nil in Hin.
Defined.

Lemma read_done_updates_and_rearms_witness :
  ∃ w1,
    handle 1 Update_spec UpdateBatch_spec SyncMessages_spec
           (RpcReadDone 0 false [sample_b1]) hub_with_peer = Done w1 ∧
    syncer w1 = syncer hub_with_peer ∧ heap w1 = heap hub_with_peer ∧
    io_context_ w1 = [] ∧
    trace w1 = trace hub_with_peer ++ [StartRead 0].
Proof.
  apply (proj2 (read_done_updates_and_rearms 1 Update_spec UpdateBatch_spec
                  SyncMessages_spec 0 hub_with_peer (new_server_reactor "A")
                  [sample_b1] ltac:(vm_compute; reflexivity) eq_refl)).
Defined.

(** * The further properties on sample inputs *)

Lemma Accept_registered_peer_witness :
  (Accept "A" hub_with_peer).1 = Some 0 ∧
  followers_ (syncer (Accept "A" hub_with_peer).2)
    = followers_ (syncer hub_with_peer) ∧
  heap (Accept "A" hub_with_peer).2 = heap hub_with_peer ∧
  cluster_messages_ (syncer (Accept "A" hub_with_peer).2)
    = <[("A" : NodeId) := ∅]> (cluster_messages_ (syncer hub_with_peer)) ∧
  trace (Accept "A" hub_with_peer).2
    = trace hub_with_peer ++ [StartSendInitialMetadata (next_reactor hub_with_peer)].
Proof.
  apply (Accept_registered_peer "A" hub_with_peer 0); vm_compute; reflexivity.
Defined.

Lemma Accept_other_peers_witness :
  followers_ (syncer (Accept "B" hub_with_peer).2) !! "A" = Some 0 ∧
  cluster_messages_ (syncer (Accept "B" hub_with_peer).2) !! "A" = Some ∅ ∧
  cluster_messages_ (syncer (Accept "B" hub_with_peer).2) !! "B" = Some ∅.
Proof.
  destruct (Accept_other_peers "B" "A" hub_with_peer)
    as (Hf & Hc & Hn & _); [discriminate|].
  rewrite Hf, Hc, Hn. vm_compute. done.
Defined.

Lemma one_continuation_witness :
  ∃ x, heap (sample_world (write_then true [])) !! 0 = Some x ∧
       is_Some (timer x) ∧ write_in_flight x = false ∧
       RaySyncWrite 0 ∉ io_context_ (sample_world (write_then true [])).
Proof.
  destruct (heap (sample_world (write_then true [])) !! 0) as [x|] eqn:Hx;
    [|by vm_compute in Hx].
  exists x. split; [reflexivity|].
  destruct (one_continuation 1 Update_spec UpdateBatch_spec SyncMessages_spec
              0 (new_world "H" 1) (write_then true [])
              (sample_world (write_then true [])) x) as (_ & _ & Htimer).
  - by repeat split.
  - apply run_runs. vm_compute. reflexivity.
  - exact Hx.
  - assert (is_Some (timer x)) as Ht.
    { vm_compute in Hx. injection Hx as <-. by eexists. }
    destruct (Htimer Ht) as (? & _ & ?). done.
Defined.

Lemma no_write_while_in_flight_witness :
  ∃ w',
    handle 1 Update_spec UpdateBatch_spec SyncMessages_spec
           (CallUpdate "B" sample_b2) (sample_world first_write_run) = Done w' ∧
    writes 0 (trace w') = writes 0 (trace (sample_world first_write_run)).
Proof.
  eexists. split; [reflexivity|].
  apply (no_write_while_in_flight 1 Update_spec UpdateBatch_spec
           SyncMessages_spec 0 (new_world "H" 1) first_write_run
           (sample_world first_write_run) (CallUpdate "B" sample_b2) _
           (set_write_in_flight true
              (set_out_message [sample_b1]
                 (set_buffer [sample_b1]
                    (set_metadata_in_flight false (new_server_reactor "A")))))).
  - by repeat split.
  - apply run_runs. vm_compute. reflexivity.
  - vm_compute. reflexivity.
  - reflexivity.
  - reflexivity.
  - reflexivity.
Defined.

Lemma cancelled_timer_stops_writer_witness :
  ∃ w2 w3,
    handle 1 Update_spec UpdateBatch_spec SyncMessages_spec
           (TimerEvent 0 (Some operation_aborted))
           (sample_world (write_then true [])) = Done w2 ∧
    run_spec 1 after_cancel_run w2 = Some w3 ∧
    writes 0 (trace w3) = writes 0 (trace (sample_world (write_then true []))).
Proof.
  destruct (handle 1 Update_spec UpdateBatch_spec SyncMessages_spec
              (TimerEvent 0 (Some operation_aborted))
              (sample_world (write_then true []))) as [w2| |] eqn:Hs;
    [|by vm_compute in Hs..].
  destruct (run_spec 1 after_cancel_run w2) as [w3|] eqn:Hrun.
  2:{ vm_compute in Hs. injection Hs as <-. by vm_compute in Hrun. }
  exists w2, w3. split; [reflexivity|]. split; [exact Hrun|].
  apply (cancelled_timer_stops_writer 1 Update_spec UpdateBatch_spec
           SyncMessages_spec 0 (new_world "H" 1) (write_then true [])
           (sample_world (write_then true [])) w2 after_cancel_run w3).
  - by repeat split.
  - apply run_runs. vm_compute. reflexivity.
  - vm_compute. reflexivity.
  - exact Hs.
  - by apply run_runs.
Defined.

Lemma metadata_failure_finishes_witness :
  ∃ w2 w3,
    handle 1 Update_spec UpdateBatch_spec SyncMessages_spec
           (RpcSendInitialMetadataDone 0 false) (sample_world connect_run) = Done w2 ∧
    run_spec 1 after_cancel_run w2 = Some w3 ∧
    trace w2 = trace (sample_world connect_run) ++ [Finish 0 OK] ∧
    writes 0 (trace w3) = writes 0 (trace (sample_world connect_run)).
Proof.
  destruct (handle 1 Update_spec UpdateBatch_spec SyncMessages_spec
              (RpcSendInitialMetadataDone 0 false) (sample_world connect_run))
    as [w2| |] eqn:Hs; [|by vm_compute in Hs..].
  destruct (run_spec 1 after_cancel_run w2) as [w3|] eqn:Hrun.
  2:{ vm_compute in Hs. injection Hs as <-. by vm_compute in Hrun. }
  exists w2, w3. split; [reflexivity|]. split; [exact Hrun|].
  destruct (metadata_failure_finishes 1 Update_spec UpdateBatch_spec
              SyncMessages_spec 0 (new_world "H" 1)
              connect_run (sample_world connect_run)
              w2 after_cancel_run w3) as (Ht & _ & Hw).
  - by repeat split.
  - apply run_runs. vm_compute. reflexivity.
  - vm_compute. reflexivity.
  - exact Hs.
  - by apply run_runs.
  - split; [exact Ht|exact Hw].
Defined.


Lemma followers_never_dangle_witness :
  followers_live (sample_world disconnect_run).
Proof.
  apply (followers_never_dangle 1 Update_spec UpdateBatch_spec SyncMessages_spec
           (λ from m s, proj1 (Update_spec_wiring from m s))
           UpdateBatch_spec_followers SyncMessages_spec_followers
           (new_world "H" 1) disconnect_run (sample_world disconnect_run)).
  - split; intros r x Hr; cbn in Hr; by rewrite lookup_empty in Hr.
  - intros n r Hn. cbn in Hn. by rewrite lookup_empty in Hn.
  - apply run_runs. vm_compute. reflexivity.
Defined.

Lemma StartSync_returns_live_reactor_witness :
  ∃ result w' peer r x,
    StartSync [("node_id", "A")] (new_world "H" 1) = Done (result, w') ∧
    metadata_find "node_id" [("node_id", "A")] = Some peer ∧
    result = Some r ∧ followers_ (syncer w') !! peer = Some r ∧
    heap w' !! r = Some x ∧ kind x = ServerSide ∧ node_id x = peer.
Proof.
  destruct (StartSync [("node_id", "A")] (new_world "H" 1))
    as [[result w']| |] eqn:Hs; [|by vm_compute in Hs..].
  destruct (StartSync_returns_live_reactor [("node_id", "A")] (new_world "H" 1)
              result w') as (peer & r & x & H).
  - split; intros r x Hr; cbn in Hr; by rewrite lookup_empty in Hr.
  - intros n r Hn. cbn in Hn. by rewrite lookup_empty in Hn.
  - exact Hs.
  - exists result, w', peer, r, x. split; [reflexivity|exact H].
Defined.

Lemma server_done_destroys_itself_witness :
  ∃ w',
    run_RaySyncDone 0 hub_with_peer = Done w' ∧
    heap w' = delete 0 (heap hub_with_peer) ∧
    followers_ (syncer w')
      = delete (node_id (new_server_reactor "A"))
               (followers_ (syncer hub_with_peer)) ∧
    cluster_messages_ (syncer w') = cluster_messages_ (syncer hub_with_peer) ∧
    trace w' = trace hub_with_peer ∧ io_context_ w' = io_context_ hub_with_peer.
Proof.
  apply (server_done_destroys_itself 0 hub_with_peer (new_server_reactor "A")).
  - apply Accept_followers_ok.
    split; intros r x Hr; cbn in Hr; by rewrite lookup_empty in Hr.
  - vm_compute. reflexivity.
  - reflexivity.
Defined.

Lemma registered_reporter_is_asked_witness :
  collect_snapshots Update_spec 1 0
    (Register 0 (Some (mkReporter sample_h1)) None (syncer hub_with_peer))
  = Update_spec "H" sample_h1
      (Register 0 (Some (mkReporter sample_h1)) None (syncer hub_with_peer)).
Proof.
  rewrite (registered_reporter_is_asked 1 Update_spec 0
             (Some (mkReporter sample_h1)) None (syncer hub_with_peer)).
  - reflexivity.
  - intros from m s. split; apply Update_spec_wiring.
  - vm_compute. lia.
  - lia.
Defined.

Lemma one_read_armed_per_completion_witness :
  reads 0 (trace (sample_world read_run))
  + posted_reads 0 (io_context_ (sample_world read_run)) = 2.
Proof.
  rewrite (one_read_armed_per_completion 1 Update_spec UpdateBatch_spec
             SyncMessages_spec 0 (new_world "H" 1) read_run
             (sample_world read_run)).
  - reflexivity.
  - apply run_runs. vm_compute. reflexivity.
Defined.

Lemma no_write_before_handshake_witness :
  writes 0 (trace (sample_world early_run)) = 0.
Proof.
  apply (no_write_before_handshake 1 Update_spec UpdateBatch_spec
           SyncMessages_spec 0 (new_world "H" 1) early_run
           (sample_world early_run)).
  - by repeat split.
  - apply run_runs. vm_compute. reflexivity.
  - intros e Hin. unfold early_run in Hin.
    repeat (apply elem_of_cons in Hin as [->|Hin]; [reflexivity|]).
    by apply elem_of_nil in Hin.
Defined.
